(** * shopping-list-sync: a shallow embedding and its properties

    The development follows the Python package [shopping_list_sync]:
    - [state.py]     : [SyncState] (snapshot comparison, atomic save);
    - [sync.py]      : the retry decorator and [check_and_sync];
    - [organizer.py] : escalation task, duplicate filter, categorisation,
                       the apply loop.

    A Python string is modelled by the [string] of its UTF-8 bytes.
    Concatenation, equality, the substring test and the replacement of one
    ASCII character by another are the byte-wise ones, which on UTF-8
    agree with Python's.  [str.lower], [str.strip] and [str.title] consult
    the Unicode character database: they are collaborators (the record
    [Unicode]), known only by the properties listed there, and the program
    is verified for every such functions.  A Python [dict] is an
    association list in insertion order whose keys are pairwise distinct.  Remote
    services (Todoist, OpenAI), the clock, the YAML loader and file-system
    faults are collaborators: they are deterministic oracles of the
    history of events, gathered in the record [Env]. *)

From Stdlib Require Import List String Ascii ZArith Bool Arith Lia Permutation.
From Stdlib Require DecimalString.
Import ListNotations.
Local Open Scope list_scope.
Local Open Scope string_scope.

(* ===================================================================== *)
(** ** Python string operations *)
(* ===================================================================== *)

Definition is_upper (c : ascii) : bool :=
  let n := nat_of_ascii c in (65 <=? n)%nat && (n <=? 90)%nat.

Definition is_lower (c : ascii) : bool :=
  let n := nat_of_ascii c in (97 <=? n)%nat && (n <=? 122)%nat.

Definition to_lower (c : ascii) : ascii :=
  if is_upper c then ascii_of_nat (nat_of_ascii c + 32) else c.

Definition to_upper (c : ascii) : ascii :=
  if is_lower c then ascii_of_nat (nat_of_ascii c - 32) else c.

(** [str.isspace] on one ASCII character. *)
Definition is_space (c : ascii) : bool :=
  let n := nat_of_ascii c in
  ((9 <=? n)%nat && (n <=? 13)%nat) || ((28 <=? n)%nat && (n <=? 32)%nat).

(** The text is ASCII: every byte is below 128. *)
Definition is_ascii (s : string) : bool :=
  forallb (fun c => (nat_of_ascii c <? 128)%nat) (list_ascii_of_string s).

(** No byte of the text is one of [A]..[Z]. *)
Definition no_upper (s : string) : bool :=
  forallb (fun c => negb (is_upper c)) (list_ascii_of_string s).

(** [s.lower()] on ASCII text. *)
Fixpoint ascii_lower (s : string) : string :=
  match s with
  | EmptyString => EmptyString
  | String c s' => String (to_lower c) (ascii_lower s')
  end.

(** [s.replace(a, b)] for one-character [a] and [b]. *)
Fixpoint replace (a b : ascii) (s : string) : string :=
  match s with
  | EmptyString => EmptyString
  | String c s' => String (if Ascii.eqb c a then b else c) (replace a b s')
  end.

(** [s.title()] on ASCII text: a cased character is upper-cased after an
    uncased one and lower-cased after a cased one. *)
Fixpoint title_from (previous_is_cased : bool) (s : string) : string :=
  match s with
  | EmptyString => EmptyString
  | String c s' =>
      let cased := is_upper c || is_lower c in
      String (if cased
              then (if previous_is_cased then to_lower c else to_upper c)
              else c)
             (title_from cased s')
  end.

Definition ascii_title (s : string) : string := title_from false s.

Fixpoint lstrip (s : string) : string :=
  match s with
  | EmptyString => EmptyString
  | String c s' => if is_space c then lstrip s' else s
  end.

Definition str_rev (s : string) : string :=
  string_of_list_ascii (rev (list_ascii_of_string s)).

Definition rstrip (s : string) : string := str_rev (lstrip (str_rev s)).

(** [s.strip()] on ASCII text. *)
Definition ascii_strip (s : string) : string := rstrip (lstrip s).

(** The three methods of [str] the program calls that depend on the
    Unicode character database, as functions of the UTF-8 text.  What is
    known of them: [lower] leaves no [A]..[Z] behind (a lower-case mapping
    never yields one, and the bytes of a character outside ASCII are all
    above 127), and on ASCII text [lower] and [title] are the ASCII
    functions above. *)
Record Unicode := {
  str_lower : string -> string;
  str_strip : string -> string;
  str_title : string -> string;
  lower_no_upper : forall s, no_upper (str_lower s) = true;
  lower_ascii : forall s, is_ascii s = true -> str_lower s = ascii_lower s;
  title_ascii : forall s, is_ascii s = true -> str_title s = ascii_title s
}.

(** [needle in hay] for two strings: substring test. *)
Fixpoint contains (needle hay : string) : bool :=
  String.prefix needle hay
  || match hay with
     | EmptyString => false
     | String _ hay' => contains needle hay'
     end.

(** [x in l] for a list of strings. *)
Definition str_in (x : string) (l : list string) : bool :=
  existsb (String.eqb x) l.

(** [sep.join(l)] *)
Definition join (sep : string) (l : list string) : string :=
  String.concat sep l.

(** Truthiness of an optional string: [None] and [''] are falsy. *)
Definition truthy (o : option string) : bool :=
  match o with
  | Some s => negb (String.eqb s "")
  | None => false
  end.

Definition option_string_eqb (a b : option string) : bool :=
  match a, b with
  | Some x, Some y => String.eqb x y
  | None, None => true
  | _, _ => false
  end.

(* ===================================================================== *)
(** ** Python dictionaries with string keys *)
(* ===================================================================== *)

Section PyDict.
Context {V : Type}.

Definition dict := list (string * V).

Definition keys (d : dict) : list string := map fst d.

(** [d.get(k)] *)
Fixpoint dict_get (d : dict) (k : string) : option V :=
  match d with
  | [] => None
  | (k', v) :: d' => if String.eqb k' k then Some v else dict_get d' k
  end.

(** [k in d] *)
Definition dict_mem (d : dict) (k : string) : bool :=
  match dict_get d k with Some _ => true | None => false end.

(** [d[k] = v]: an existing key keeps its position, a new one goes last. *)
Fixpoint dict_set (d : dict) (k : string) (v : V) : dict :=
  match d with
  | [] => [(k, v)]
  | (k', v') :: d' =>
      if String.eqb k' k then (k', v) :: d' else (k', v') :: dict_set d' k v
  end.

(** [a == b] as CPython compares two dicts: same size, and every key of
    [a] is in [b] with an equal value. *)
Definition dict_eqb (veqb : V -> V -> bool) (a b : dict) : bool :=
  (List.length a =? List.length b)%nat
  && forallb (fun kv => match dict_get b (fst kv) with
                        | Some v' => veqb (snd kv) v'
                        | None => false
                        end) a.

(** The invariant of a Python dict: no key occurs twice. *)
Definition wf_dict (d : dict) : Prop := NoDup (keys d).
End PyDict.

Arguments dict : clear implicits.

(* ===================================================================== *)
(** ** state.py: [SyncState] *)
(* ===================================================================== *)

(** The value stored per task id:
    [{'content': ..., 'section_id': ..., 'is_completed': ...}]. *)
Record TaskSnapshot := {
  content : string;
  section_id : option string;
  is_completed : bool
}.

Definition snapshot_eqb (a b : TaskSnapshot) : bool :=
  String.eqb (content a) (content b)
  && option_string_eqb (section_id a) (section_id b)
  && Bool.eqb (is_completed a) (is_completed b).

(** Time stamps are kept in their ISO-8601 text form. *)
Definition datetime := string.

Record SyncState := {
  tasks_state : dict TaskSnapshot;   (* task_id -> snapshot *)
  last_sync : option datetime
}.

(** [SyncState.__init__] *)
Definition SyncState_init : SyncState :=
  {| tasks_state := []; last_sync := None |}.

(** [SyncState.has_changed]: [current_state != self.tasks_state] *)
Definition has_changed (self : SyncState) (current_state : dict TaskSnapshot) : bool :=
  negb (dict_eqb snapshot_eqb current_state (tasks_state self)).

(** [SyncState.update], given the value of [datetime.utcnow()]. *)
Definition update (self : SyncState) (new_state : dict TaskSnapshot)
    (utcnow : datetime) : SyncState :=
  {| tasks_state := new_state; last_sync := Some utcnow |}.

(* ===================================================================== *)
(** ** Paths and the file system *)
(* ===================================================================== *)

(** A [pathlib.Path]: the directories leading to the file, and its name. *)
Record Path := {
  parent : list string;
  name : string
}.

Definition Path_eqb (p q : Path) : bool :=
  (if list_eq_dec string_dec (parent p) (parent q) then true else false)
  && String.eqb (name p) (name q).

(** [s.rfind(c)]: the index of the last [c] in [s], or [-1]. *)
Fixpoint rfind (c : ascii) (s : list ascii) : Z :=
  match s with
  | [] => (-1)%Z
  | x :: s' =>
      let i := rfind c s' in
      if (0 <=? i)%Z then (i + 1)%Z
      else if Ascii.eqb x c then 0%Z else (-1)%Z
  end.

(** [PurePath.suffix]: the last dot-separated part of the name, if the dot
    is neither the first nor the last character. *)
Definition suffix (nm : string) : string :=
  let l := list_ascii_of_string nm in
  let i := rfind "."%char l in
  if (0 <? i)%Z && (i <? Z.of_nat (List.length l) - 1)%Z
  then string_of_list_ascii (skipn (Z.to_nat i) l)
  else "".

(** [PurePath.with_suffix(suffix)] for a suffix that starts with a dot;
    [None] stands for the [ValueError] raised on an empty name. *)
Definition with_suffix (p : Path) (new_suffix : string) : option Path :=
  if String.eqb (name p) "" then None
  else
    let old_suffix := suffix (name p) in
    let new_name :=
      if String.eqb old_suffix "" then name p ++ new_suffix
      else
        let l := list_ascii_of_string (name p) in
        string_of_list_ascii
          (firstn (List.length l - String.length old_suffix) l) ++ new_suffix in
    Some {| parent := parent p; name := new_name |}.

(** Regular files and their contents. *)
Definition FS := Path -> option string.

Definition fs_write (fs : FS) (p : Path) (data : string) : FS :=
  fun q => if Path_eqb q p then Some data else fs q.

Definition fs_remove (fs : FS) (p : Path) : FS :=
  fun q => if Path_eqb q p then None else fs q.

(** The file-system primitives [save] goes through. *)
Inductive fs_op :=
| Mkdir (dirs : list string)          (* mkdir(parents=True, exist_ok=True) *)
| OpenW (p : Path)                    (* open(p, 'w'): create or truncate *)
| Write (p : Path) (chunk : string)   (* f.write(chunk) *)
| Close (p : Path)
| Replace (src dst : Path).           (* src.replace(dst): atomic rename *)

Definition apply_op (fs : FS) (op : fs_op) : FS :=
  match op with
  | Mkdir _ => fs
  | OpenW p => fs_write fs p ""
  | Write p chunk =>
      fs_write fs p (match fs p with Some old => old | None => "" end ++ chunk)
  | Close _ => fs
  | Replace src dst =>
      match fs src with
      | Some data => fs_write (fs_remove fs src) dst data
      | None => fs
      end
  end.

(** [Replace] of a source that is not there. *)
Definition missing_source (fs : FS) (op : fs_op) : bool :=
  match op with
  | Replace src _ => match fs src with Some _ => false | None => true end
  | _ => false
  end.

(* ===================================================================== *)
(** ** Exceptions, events and collaborators *)
(* ===================================================================== *)

(** The exceptions the program tells apart (by [isinstance]) and all the
    others.  [HTTPError] is what [raise_for_status] raises for every 4xx
    and 5xx response; it carries the status code. *)
Inductive exn :=
| HTTPError (status_code : Z) (msg : string)   (* requests.exceptions.HTTPError *)
| ConnectionError (msg : string)               (* requests.exceptions.ConnectionError *)
| ConnectTimeout (msg : string)                (* subclass of ConnectionError *)
| ReadTimeout (msg : string)                   (* subclass of Timeout only *)
| PyException (cls : string) (msg : string).   (* any other Exception *)

(** [str(e)] *)
Definition str (e : exn) : string :=
  match e with
  | HTTPError _ msg | ConnectionError msg | ConnectTimeout msg
  | ReadTimeout msg | PyException _ msg => msg
  end.

Module Task.
(** A Todoist task, as far as the program reads it. *)
Record t := mk {
  id : string;
  content : string;
  section_id : option string;
  parent_id : option string;
  is_completed : bool
}.
End Task.

Module Project.
Record t := mk { id : string; name : string }.
End Project.

Module TSection.
(** A Todoist section. *)
Record t := mk { id : string; name : string }.
End TSection.

(** One entry of [categories.yaml]. *)
Record CategoryConfig := {
  emoji : string;
  keywords : list string
}.

Record Settings := {
  TODOIST_SHOPPING_PROJECT_NAME : string;
  TODOIST_SHOPPING_PROJECT_ID : option string;
  TODOIST_SYSTEM_PROJECT_ID : option string;
  OPENAI_MODEL : string;
  STATE_FILE : Path;
  ERROR_HANDLING_MODE : string
}.

(** Remote calls: the nine methods of [TodoistAPI] the program uses and
    the chat completion of the OpenAI client. *)
Inductive call :=
| get_project (project_id : string)
| get_projects
| add_project (name : string)
| get_sections (project_id : string)
| add_section (project_id name : string)
| get_tasks (project_id : string)
| add_task (content project_id : string) (section_id : option string)
           (priority : option Z) (due_string : option string)
| update_task (task_id section_id : string)
| delete_task (task_id : string)
| chat_completions_create (model system_prompt user_prompt : string).

Inductive level := DEBUG | INFO | WARNING | ERROR.

Inductive event :=
| Call (c : call)
| Log (lvl : level) (msg : string)
| Sleep (seconds : Z)
| Fs (op : fs_op).

Definition result (A : Type) : Type := (exn + A)%type.

(** The collaborators.  Each answer may depend on everything that happened
    before (the history, oldest event first). *)
Record Env := {
  api_get_project : list event -> string -> result Project.t;
  api_get_projects : list event -> result (list Project.t);
  api_add_project : list event -> string -> result Project.t;
  api_get_sections : list event -> string -> result (list TSection.t);
  api_add_section : list event -> string -> string -> result TSection.t;
  api_get_tasks : list event -> string -> result (list Task.t);
  api_add_task : list event -> string -> string -> option string ->
                 option Z -> option string -> result Task.t;
  api_update_task : list event -> string -> string -> result bool;
  api_delete_task : list event -> string -> result bool;
  (** [str.lower], [str.strip], [str.title] *)
  unicode : Unicode;
  (** [OpenAI(api_key=...)] *)
  OpenAI_init : list event -> option exn;
  (** [create(...).choices[0].message.content] *)
  api_chat_completions_create :
    list event -> string -> string -> string -> result string;
  (** [eval] of the response text: an exception, or the mapping from
      category name to item names it denotes. *)
  py_eval : string -> result (dict (list string));
  (** [config.load_categories] *)
  load_categories : list event -> result (dict CategoryConfig);
  (** [datetime.now().isoformat()] and [datetime.utcnow()] *)
  now_isoformat : list event -> string;
  utcnow : list event -> datetime;
  (** the chunks [json.dump(state_dict, f, indent=2)] writes *)
  json_chunks : dict TaskSnapshot -> option datetime -> list string;
  (** an [OSError] the file system answers an operation with *)
  fs_fault : list event -> fs_op -> option exn
}.

(* ===================================================================== *)
(** ** The monad of the program: state and exceptions *)
(* ===================================================================== *)

Record World := {
  history : list event;
  state : SyncState;      (* [ShoppingListSync.state] *)
  files : FS
}.

Definition M (A : Type) : Type := World -> World * result A.

Definition ret {A} (a : A) : M A := fun w => (w, inr a).

Definition bind {A B} (m : M A) (k : A -> M B) : M B :=
  fun w => match m w with
           | (w', inr a) => k a w'
           | (w', inl e) => (w', inl e)
           end.

Definition raise {A} (e : exn) : M A := fun w => (w, inl e).

(** Run [m] and hand back its outcome, raised or returned. *)
Definition attempt {A} (m : M A) : M (result A) :=
  fun w => let (w', r) := m w in (w', inr r).

Declare Scope monad_scope.
Delimit Scope monad_scope with monad.
Notation "x <- m ;; k" := (bind m (fun x => k))
  (at level 61, m at next level, right associativity) : monad_scope.
Notation "m ;; k" := (bind m (fun _ => k))
  (at level 61, right associativity) : monad_scope.
Local Open Scope monad_scope.

(** [try: m  except Exception as e: handler e] *)
Definition try_except {A} (m : M A) (handler : exn -> M A) : M A :=
  r <- attempt m ;;
  match r with
  | inr a => ret a
  | inl e => handler e
  end.

Definition emit (ev : event) : M unit :=
  fun w => ({| history := (history w ++ [ev])%list; state := state w; files := files w |},
            inr tt).

Definition log (lvl : level) (msg : string) : M unit := emit (Log lvl msg).

Definition when (b : bool) (m : M unit) : M unit := if b then m else ret tt.

Definition get_state : M SyncState := fun w => (w, inr (state w)).

Definition put_state (s : SyncState) : M unit :=
  fun w => ({| history := history w; state := s; files := files w |}, inr tt).

Definition str_of_nat (n : nat) : string :=
  DecimalString.NilZero.string_of_uint (Nat.to_uint n).

Definition str_of_Z (z : Z) : string :=
  DecimalString.NilZero.string_of_int (Z.to_int z).

Definition nl : string := String (ascii_of_nat 10) "".
Definition dq : string := String (ascii_of_nat 34) "".

Section Program.
Variable env : Env.
Variable settings : Settings.

(** A remote call: recorded in the history, answered by the oracle. *)
Definition remote {A} (c : call) (oracle : list event -> result A) : M A :=
  fun w => ({| history := (history w ++ [Call c])%list; state := state w; files := files w |},
            oracle (history w)).

(** A file-system operation; a fault leaves the files as they are, and
    renaming a file that does not exist is one. *)
Definition fs_do (op : fs_op) : M unit :=
  fun w =>
    match fs_fault env (history w) op with
    | Some e => (w, inl e)
    | None =>
        if missing_source (files w) op
        then (w, inl (PyException "FileNotFoundError" "No such file or directory"))
        else ({| history := (history w ++ [Fs op])%list; state := state w;
                 files := apply_op (files w) op |}, inr tt)
    end.

(* ------------------------------------------------------------------- *)
(** *** state.py: [update] and [save] *)

(** [SyncState.update] *)
Definition state_update (new_state : dict TaskSnapshot) : M unit :=
  fun w => put_state (update (state w) new_state (utcnow env (history w))) w.

(** [for chunk in iterencode(obj): fp.write(chunk)] *)
Fixpoint write_chunks (p : Path) (chunks : list string) : M unit :=
  match chunks with
  | [] => ret tt
  | chunk :: rest => fs_do (Write p chunk) ;; write_chunks p rest
  end.

(** [with open(p, 'w') as f: body]: the file is closed in every case; an
    exception of [close] replaces the one of the body. *)
Definition with_open_w (p : Path) (body : M unit) : M unit :=
  fs_do (OpenW p) ;;
  r <- attempt body ;;
  c <- attempt (fs_do (Close p)) ;;
  match c, r with
  | inl e, _ => raise e
  | inr _, inl e => raise e
  | inr _, inr _ => ret tt
  end.

Definition path_str (p : Path) : string :=
  join "/" (parent p ++ [name p])%list.

(** [SyncState.save] *)
Definition save : M unit :=
  let state_file := STATE_FILE settings in
  try_except
    (fs_do (Mkdir (parent state_file)) ;;
     temp_file <- match with_suffix state_file ".tmp" with
                  | Some p => ret p
                  | None => raise (PyException "ValueError" "empty name")
                  end ;;
     self <- get_state ;;
     with_open_w temp_file
       (write_chunks temp_file
          (json_chunks env (tasks_state self) (last_sync self))) ;;
     fs_do (Replace temp_file state_file) ;;
     log DEBUG ("Saved state with "
                ++ str_of_nat (List.length (tasks_state self)) ++ " tasks"))
    (fun e =>
       log ERROR ("Failed to save state to " ++ path_str state_file
                  ++ ": " ++ str e) ;;
       raise e).

(** The operations of a [save] no fault interrupts, in order. *)
Definition save_ops (state_file temp_file : Path) (chunks : list string)
  : list fs_op :=
  ([Mkdir (parent state_file); OpenW temp_file]
   ++ map (Write temp_file) chunks
   ++ [Close temp_file; Replace temp_file state_file])%list.

(* ------------------------------------------------------------------- *)
(** *** sync.py: the retry decorator *)

(** [retry_if_exception_type((HTTPError, ConnectionError))] *)
Definition retry_if_exception_type (e : exn) : bool :=
  match e with
  | HTTPError _ _ | ConnectionError _ | ConnectTimeout _ => true
  | ReadTimeout _ | PyException _ _ => false
  end.

(** [stop_after_attempt(3)] *)
Definition stop_after_attempt (max_attempt_number attempt_number : nat) : bool :=
  (max_attempt_number <=? attempt_number)%nat.

(** [wait_exponential(multiplier=1, min=4, max=10)] *)
Definition wait_exponential (multiplier min max : Z) (attempt_number : nat) : Z :=
  let exp := (2 ^ Z.of_nat (attempt_number - 1))%Z in
  let result := (multiplier * exp)%Z in
  Z.max (Z.max 0 min) (Z.min result max).

(** [before_sleep_log(logger, "WARNING")] and the sleep that follows.  The
    line tenacity writes also names the decorated function and the class
    of the exception; the embedding keeps the level, the pause and the
    message. *)
Definition before_sleep (attempt_number : nat) (e : exn) : M unit :=
  let seconds := wait_exponential 1 4 10 attempt_number in
  log WARNING ("Retrying in " ++ str_of_Z seconds ++ " seconds as it raised "
               ++ str e) ;;
  emit (Sleep seconds).

(** The loop of a decorated function: call it; return its value; raise
    its exception when the predicate rejects it or the attempts are used
    up ([reraise=True]); otherwise sleep and call again.  [fuel] bounds
    the recursion; three units are never used up. *)
Fixpoint retry_loop {A} (fuel attempt_number : nat) (fn : M A) : M A :=
  r <- attempt fn ;;
  match r with
  | inr a => ret a
  | inl e =>
      if negb (retry_if_exception_type e) then raise e
      else if stop_after_attempt 3 attempt_number then raise e
      else
        match fuel with
        | O => raise (PyException "RecursionError" "out of fuel")
        | S fuel' =>
            before_sleep attempt_number e ;;
            retry_loop fuel' (S attempt_number) fn
        end
  end.

(** [@create_todoist_retry_decorator()] *)
Definition create_todoist_retry_decorator {A} (fn : M A) : M A :=
  retry_loop 3 1 fn.

(* ------------------------------------------------------------------- *)
(** *** sync.py: the two decorated methods *)

Definition str_of_option (o : option string) : string :=
  match o with Some s => s | None => "None" end.

Definition _get_shopping_project_id_body : M (option string) :=
  try_except
    (by_id <-
       (if truthy (TODOIST_SHOPPING_PROJECT_ID settings) then
          let pid := str_of_option (TODOIST_SHOPPING_PROJECT_ID settings) in
          r <- attempt (remote (get_project pid) (fun h => api_get_project env h pid)) ;;
          match r with
          | inr project => ret (Some (Project.id project))
          | inl _ =>
              log WARNING ("Project ID " ++ pid
                           ++ " not found, falling back to name search") ;;
              ret None
          end
        else ret None) ;;
     match by_id with
     | Some project_id => ret (Some project_id)
     | None =>
         projects <- remote get_projects (api_get_projects env) ;;
         let shopping_project :=
           find (fun p => String.eqb (Project.name p)
                            (TODOIST_SHOPPING_PROJECT_NAME settings)) projects in
         ret (option_map Project.id shopping_project)
     end)
    (fun e => log ERROR ("Failed to get shopping project: " ++ str e) ;; raise e).

Definition _get_shopping_project_id : M (option string) :=
  create_todoist_retry_decorator _get_shopping_project_id_body.

(** The dict comprehension [{task.id: {...} for task in tasks}]. *)
Definition tasks_snapshot (tasks : list Task.t) : dict TaskSnapshot :=
  fold_left
    (fun d task =>
       dict_set d (Task.id task)
         {| content := Task.content task;
            section_id := Task.section_id task;
            is_completed := Task.is_completed task |})
    tasks [].

Definition _get_current_tasks_state_body (project_id : string)
  : M (dict TaskSnapshot) :=
  try_except
    (tasks <- remote (get_tasks project_id)
                     (fun h => api_get_tasks env h project_id) ;;
     ret (tasks_snapshot tasks))
    (fun e => log ERROR ("Failed to get tasks: " ++ str e) ;; raise e).

Definition _get_current_tasks_state (project_id : string)
  : M (dict TaskSnapshot) :=
  create_todoist_retry_decorator (_get_current_tasks_state_body project_id).

(* ------------------------------------------------------------------- *)
(** *** organizer.py *)

Definition datetime_now : M string :=
  fun w => (w, inr (now_isoformat env (history w))).

Definition mode_in (modes : list string) : bool :=
  str_in (ERROR_HANDLING_MODE settings) modes.

Definition todoist_get_tasks (project_id : string) : M (list Task.t) :=
  remote (get_tasks project_id) (fun h => api_get_tasks env h project_id).

Definition todoist_add_task (content project_id : string)
    (section_id : option string) (priority : option Z)
    (due_string : option string) : M Task.t :=
  remote (add_task content project_id section_id priority due_string)
         (fun h => api_add_task env h content project_id section_id
                     priority due_string).

Definition todoist_delete_task (task_id : string) : M bool :=
  remote (delete_task task_id) (fun h => api_delete_task env h task_id).

Definition todoist_update_task (task_id section_id : string) : M bool :=
  remote (update_task task_id section_id)
         (fun h => api_update_task env h task_id section_id).

Definition error_task_title : string := "Shopping List Sync Error".

(** [create_error_task] *)
Definition create_error_task (error_message : string) : M unit :=
  if negb (mode_in ["task"; "both"]) then ret tt
  else if negb (truthy (TODOIST_SYSTEM_PROJECT_ID settings)) then
    log WARNING
      "ERROR_HANDLING_MODE is set to create tasks, but TODOIST_SYSTEM_PROJECT_ID is not configured"
  else
    let system_project := str_of_option (TODOIST_SYSTEM_PROJECT_ID settings) in
    try_except
      (tasks <- todoist_get_tasks system_project ;;
       let existing_task :=
         find (fun t => contains error_task_title (Task.content t)
                        && negb (Task.is_completed t)) tasks in
       match existing_task with
       | Some _ => log INFO "Error task already exists in Todoist"
       | None =>
           stamp <- datetime_now ;;
           let task_content :=
             "ðŸ”§ " ++ error_task_title ++ nl ++ nl
             ++ "Error occurred at " ++ stamp ++ nl ++ nl ++ error_message in
           todoist_add_task task_content system_project None
                            (Some 4%Z) (Some "today") ;;
           log INFO "Created error task in Todoist"
       end)
      (fun e => log ERROR ("Failed to create error task in Todoist: " ++ str e)).

(** [s.lower()], [s.strip()] and [s.title()] of the interpreter. *)
Definition lower (s : string) : string := str_lower (unicode env) s.

Definition strip (s : string) : string := str_strip (unicode env) s.

Definition title (s : string) : string := str_title (unicode env) s.

(** [category_key.replace('_', ' ').title()] *)
Definition category_display_name (category_key : string) : string :=
  title (replace "_" " " category_key).

(** The loop of [setup_todoist_resources] over the configured categories. *)
Fixpoint setup_sections (project_id : string) (sections : list TSection.t)
    (categories : list (string * CategoryConfig)) (section_dict : dict string)
  : M (dict string) :=
  match categories with
  | [] => ret section_dict
  | (category_key, category_config) :: rest =>
      let category_name := category_display_name category_key in
      let section_name := emoji category_config ++ " " ++ category_name in
      section <-
        match find (fun s => String.eqb (TSection.name s) section_name) sections with
        | Some s => ret s
        | None =>
            log INFO ("Section '" ++ section_name ++ "' not found, creating it...") ;;
            remote (add_section project_id section_name)
                   (fun h => api_add_section env h project_id section_name)
        end ;;
      setup_sections project_id sections rest
        (dict_set section_dict category_key (TSection.id section))
  end.

(** [setup_todoist_resources] *)
Definition setup_todoist_resources (categories_config : dict CategoryConfig)
  : M (string * dict string) :=
  by_id <-
    (if truthy (TODOIST_SHOPPING_PROJECT_ID settings) then
       let pid := str_of_option (TODOIST_SHOPPING_PROJECT_ID settings) in
       r <- attempt (remote (get_project pid) (fun h => api_get_project env h pid)) ;;
       match r with
       | inr project => ret (Some project)
       | inl _ =>
           log WARNING ("Shopping list project with ID " ++ pid
                        ++ " not found, falling back to name search...") ;;
           ret None
       end
     else ret None) ;;
  by_name <-
    match by_id with
    | Some project => ret (Some project)
    | None =>
        projects <- remote get_projects (api_get_projects env) ;;
        ret (find (fun p => String.eqb (Project.name p)
                              (TODOIST_SHOPPING_PROJECT_NAME settings)) projects)
    end ;;
  shopping_project <-
    match by_name with
    | Some project => ret project
    | None =>
        log WARNING ("Shopping list project '"
                     ++ TODOIST_SHOPPING_PROJECT_NAME settings
                     ++ "' not found, creating it...") ;;
        remote (add_project (TODOIST_SHOPPING_PROJECT_NAME settings))
               (fun h => api_add_project env h (TODOIST_SHOPPING_PROJECT_NAME settings))
    end ;;
  sections <- remote (get_sections (Project.id shopping_project))
                     (fun h => api_get_sections env h (Project.id shopping_project)) ;;
  section_dict <- setup_sections (Project.id shopping_project) sections
                                 categories_config [] ;;
  ret (Project.id shopping_project, section_dict).

(** The filter of [get_unlabeled_items]. *)
Definition unlabeled (task : Task.t) : bool :=
  negb (truthy (Task.section_id task)) && negb (truthy (Task.parent_id task)).

(** [get_unlabeled_items] *)
Definition get_unlabeled_items (project_id : string) : M (list Task.t) :=
  tasks <- todoist_get_tasks project_id ;;
  ret (filter unlabeled tasks).

(** [content.lower().strip()] *)
Definition normalize (content : string) : string := strip (lower content).

(** The comprehension of [get_existing_items]. *)
Definition existing_of (tasks : list Task.t) : list string :=
  map (fun task => normalize (Task.content task))
      (filter (fun task => truthy (Task.section_id task)
                           || truthy (Task.parent_id task)) tasks).

(** [get_existing_items] *)
Definition get_existing_items (project_id : string) : M (list string) :=
  tasks <- todoist_get_tasks project_id ;;
  ret (existing_of tasks).

(** One line of the category list in the system prompt. *)
Definition category_desc (entry : string * CategoryConfig) : string :=
  let category_name := category_display_name (fst entry) in
  let keywords_str :=
    match keywords (snd entry) with
    | [] => ""
    | kws => join ", " (firstn 5 kws)
    end in
  let desc := "- " ++ category_name ++ " (" ++ emoji (snd entry) ++ ")" in
  if String.eqb keywords_str "" then desc else desc ++ ": " ++ keywords_str.

Definition system_prompt (categories_config : dict CategoryConfig) : string :=
  "You are a helpful shopping list assistant. Your task is to categorize shopping items into supermarket sections."
  ++ nl ++ nl ++ "Use these categories ONLY:" ++ nl
  ++ join nl (map category_desc categories_config) ++ nl ++ nl
  ++ "For items that don't fit any category, use " ++ dq ++ "Other" ++ dq ++ ".".

Definition user_prompt (items : list Task.t) : string :=
  "Here are the shopping items:" ++ nl ++ nl
  ++ join nl (map (fun task => "- " ++ Task.content task) items) ++ nl ++ nl
  ++ "Categorize each item into one of the specified sections. Format your response as JSON with this structure:"
  ++ nl ++ "{" ++ nl
  ++ "    " ++ dq ++ "Produce" ++ dq ++ ": [" ++ dq ++ "item1" ++ dq ++ ", "
            ++ dq ++ "item2" ++ dq ++ "]," ++ nl
  ++ "    " ++ dq ++ "Other" ++ dq ++ ": [" ++ dq ++ "item3" ++ dq ++ "]," ++ nl
  ++ "    ..." ++ nl ++ "}" ++ nl ++ nl
  ++ "Only include categories that have items. Match items EXACTLY as provided. Use category names without emojis in the JSON keys.".

(** [category_name.lower().replace(' ', '_')] *)
Definition category_key_of (category_name : string) : string :=
  replace " " "_" (lower category_name).

(** The tasks whose content contains one of the names, case-insensitively. *)
Definition matching_tasks (items : list Task.t) (item_names : list string)
  : list Task.t :=
  filter (fun task =>
            existsb (fun item => contains (lower item) (lower (Task.content task)))
                    item_names)
         items.

(** One round of the loop of [categorize_items] that maps names back to
    tasks: the entry [category_name, item_names] of the response. *)
Definition map_back_step (items : list Task.t)
    (categorized_items : dict (list Task.t)) (entry : string * list string)
  : dict (list Task.t) :=
  let category_key := category_key_of (fst entry) in
  match matching_tasks items (snd entry) with
  | [] => categorized_items
  | tasks => dict_set categorized_items category_key tasks
  end.

(** The loop of [categorize_items] that maps names back to tasks. *)
Definition map_back (items : list Task.t) (category_to_items : dict (list string))
  : dict (list Task.t) :=
  fold_left (map_back_step items) category_to_items [].

(** [categorize_items] *)
Definition categorize_items (items : list Task.t)
    (categories_config : dict CategoryConfig) : M (dict (list Task.t)) :=
  match items with
  | [] => ret []
  | _ =>
      let sys := system_prompt categories_config in
      let usr := user_prompt items in
      try_except
        (response_data <-
           remote (chat_completions_create (OPENAI_MODEL settings) sys usr)
                  (fun h => api_chat_completions_create env h
                              (OPENAI_MODEL settings) sys usr) ;;
         category_to_items <-
           match py_eval env response_data with
           | inr d => ret d
           | inl e => raise e
           end ;;
         ret (map_back items category_to_items))
        (fun e =>
           log ERROR ("Failed to categorize items using OpenAI: " ++ str e) ;;
           raise e)
  end.

(** The loop of [organize_shopping_list] that filters out duplicates. *)
Fixpoint filter_duplicates (existing_items : list string)
    (unlabeled_items unique_unlabeled_items : list Task.t) : M (list Task.t) :=
  match unlabeled_items with
  | [] => ret unique_unlabeled_items
  | item :: rest =>
      let normalized_content := normalize (Task.content item) in
      if str_in normalized_content existing_items then
        log INFO ("Duplicate item found: '" ++ Task.content item ++ "'. Deleting...") ;;
        try_except
          (todoist_delete_task (Task.id item) ;;
           log INFO ("Deleted duplicate item: " ++ Task.content item))
          (fun e => log ERROR ("Failed to delete duplicate item "
                               ++ Task.content item ++ ": " ++ str e)) ;;
        filter_duplicates existing_items rest unique_unlabeled_items
      else
        filter_duplicates existing_items rest
          (unique_unlabeled_items ++ [item])%list
  end.

(** The inner loop of the apply phase: the items of one category. *)
Fixpoint move_items (project_id section_id category_name : string)
    (items : list Task.t) : M unit :=
  match items with
  | [] => ret tt
  | item :: rest =>
      try_except
        (todoist_update_task (Task.id item) section_id ;;
         log INFO ("Moved item to " ++ category_name ++ ": " ++ Task.content item))
        (fun e =>
           log ERROR ("Failed to move item " ++ Task.content item
                      ++ " to section " ++ section_id ++ ": " ++ str e) ;;
           try_except
             (log INFO ("Attempting to recreate task " ++ Task.content item
                        ++ " in new section...") ;;
              new_task <- todoist_add_task (Task.content item) project_id
                                           (Some section_id) None None ;;
              log INFO ("Created new task in " ++ category_name ++ ": "
                        ++ Task.content new_task) ;;
              try_except
                (todoist_delete_task (Task.id item) ;;
                 log INFO ("Deleted original task: " ++ Task.content item))
                (fun delete_error =>
                   log WARNING ("Failed to delete original task "
                                ++ Task.content item ++ ": " ++ str delete_error)))
             (fun add_error =>
                log ERROR ("Failed to create new task for "
                           ++ Task.content item ++ ": " ++ str add_error))) ;;
      move_items project_id section_id category_name rest
  end.

(** The apply phase: the loop over [categorized_items.items()]. *)
Fixpoint apply_moves (project_id : string) (section_dict : dict string)
    (categorized_items : list (string * list Task.t)) : M unit :=
  match categorized_items with
  | [] => ret tt
  | (category_key, items) :: rest =>
      match items, dict_get section_dict category_key with
      | _ :: _, Some section_id =>
          move_items project_id section_id
                     (category_display_name category_key) items
      | _, _ => ret tt
      end ;;
      apply_moves project_id section_dict rest
  end.

(** What [organize_shopping_list] does on a failure of the OpenAI client
    or of the categorisation, before it returns. *)
Definition report_failure (what : string) (short : string) (e : exn) : M unit :=
  log ERROR (what ++ ": " ++ str e) ;;
  when (mode_in ["log"; "both"]) (log ERROR (short ++ ": " ++ str e)) ;;
  when (mode_in ["task"; "both"]) (create_error_task (what ++ ": " ++ str e)).

(** [organize_shopping_list] *)
Definition organize_shopping_list : M unit :=
  try_except
    (log INFO "Starting shopping list organization..." ;;
     init <- (fun w => (w, inr (OpenAI_init env (history w)))) ;;
     match init with
     | Some e =>
         report_failure "Failed to initialize OpenAI client"
                        "OpenAI initialization error" e
     | None =>
         loaded <- attempt (fun w => (w, load_categories env (history w))) ;;
         match loaded with
         | inl e =>
             log ERROR ("Failed to load categories configuration: " ++ str e)
         | inr categories_config =>
             resources <- setup_todoist_resources categories_config ;;
             let project_id := fst resources in
             let section_dict := snd resources in
             unlabeled_items <- get_unlabeled_items project_id ;;
             match unlabeled_items with
             | [] => log INFO "No unlabeled items found in shopping list."
             | _ =>
                 log INFO ("Found " ++ str_of_nat (List.length unlabeled_items)
                           ++ " unlabeled items") ;;
                 existing_items <- get_existing_items project_id ;;
                 unique_unlabeled_items <-
                   filter_duplicates existing_items unlabeled_items [] ;;
                 match unique_unlabeled_items with
                 | [] => log INFO "All new items were duplicates. Nothing to categorize."
                 | _ =>
                     log INFO ("Proceeding to categorize "
                               ++ str_of_nat (List.length unique_unlabeled_items)
                               ++ " unique items") ;;
                     categorized <-
                       attempt (categorize_items unique_unlabeled_items
                                                 categories_config) ;;
                     match categorized with
                     | inl e =>
                         report_failure "Failed to categorize items using OpenAI"
                                        "OpenAI categorization error" e
                     | inr categorized_items =>
                         apply_moves project_id section_dict categorized_items ;;
                         log INFO "Shopping list organization completed successfully!"
                     end
                 end
             end
         end
     end)
    (fun e =>
       log ERROR ("Failed to organize shopping list: " ++ str e) ;;
       log ERROR (str e) ;;
       when (mode_in ["task"; "both"])
            (create_error_task ("Failed to organize shopping list: " ++ str e)) ;;
       raise e).

(* ------------------------------------------------------------------- *)
(** *** sync.py: [check_and_sync] *)

(** [ShoppingListSync.check_and_sync], the body run under the lock. *)
Definition check_and_sync : M unit :=
  try_except
    (log INFO "Starting Todoist sync check..." ;;
     project_id <- _get_shopping_project_id ;;
     if negb (truthy project_id) then
       log WARNING ("Shopping list project '"
                    ++ TODOIST_SHOPPING_PROJECT_NAME settings ++ "' not found")
     else
       current_state <- _get_current_tasks_state (str_of_option project_id) ;;
       self <- get_state ;;
       (if has_changed self current_state then
          log INFO "Changes detected in shopping list, organizing items..." ;;
          try_except
            (organize_shopping_list ;;
             state_update current_state ;;
             save ;;
             log INFO "Shopping list organization completed successfully")
            (fun e =>
               log ERROR ("Failed to organize shopping list: " ++ str e) ;;
               log ERROR (str e) ;;
               raise e)
        else log INFO "No changes detected in shopping list") ;;
       log INFO "Todoist sync check completed")
    (fun e =>
       log ERROR ("Todoist sync check failed: " ++ str e) ;;
       log ERROR (str e) ;;
       raise e).

End Program.

(** The files after a sequence of operations: what a process that stops
    after them leaves behind. *)
Definition exec_ops (fs : FS) (ops : list fs_op) : FS :=
  fold_left apply_op ops fs.

(** An operation that leaves the file [q] alone. *)
Definition spares (q : Path) (op : fs_op) : Prop :=
  forall fs, apply_op fs op q = fs q.

(** No operation of the sequence, run from the history [h], meets a fault
    of the file system. *)
Fixpoint no_fault (env : Env) (h : list event) (ops : list fs_op) : bool :=
  match ops with
  | [] => true
  | op :: rest =>
      match fs_fault env h op with
      | Some _ => false
      | None => no_fault env (h ++ [Fs op])%list rest
      end
  end.

(* ===================================================================== *)
(** ** Observations on a history *)
(* ===================================================================== *)

(** The remote calls of a history, in order. *)
Definition calls_of (h : list event) : list call :=
  flat_map (fun ev => match ev with Call c => [c] | _ => [] end) h.



(** Escalation is switched on: the mode asks for tasks and the
    administrative project is configured. *)
Definition escalation_enabled (settings : Settings) : bool :=
  mode_in settings ["task"; "both"] && truthy (TODOIST_SYSTEM_PROJECT_ID settings).

(** The content of the marker task [create_error_task] posts. *)
Definition error_task_content (stamp error_message : string) : string :=
  "ðŸ”§ " ++ error_task_title ++ nl ++ nl
  ++ "Error occurred at " ++ stamp ++ nl ++ nl ++ error_message.

(** The open marker task [create_error_task] looks for. *)
Definition open_error_task (tasks : list Task.t) : option Task.t :=
  find (fun t => contains error_task_title (Task.content t)
                 && negb (Task.is_completed t)) tasks.

(** The test of the duplicate filter on one item. *)
Definition is_duplicate (env : Env) (existing_items : list string)
    (item : Task.t) : bool :=
  str_in (normalize env (Task.content item)) existing_items.

(** The world after some more events. *)
Definition after (w : World) (evs : list event) : World :=
  {| history := (history w ++ evs)%list; state := state w; files := files w |}.




(* ===================================================================== *)
(** ** The failure classes in the words of the specification *)
(* ===================================================================== *)

(** A transient network-class failure: a connection failure, or a remote
    server or transport error (a 5xx answer, a time-out). *)
Definition spec_transient (e : exn) : bool :=
  match e with
  | ConnectionError _ | ConnectTimeout _ | ReadTimeout _ => true
  | HTTPError status _ => (500 <=? status)%Z && (status <? 600)%Z
  | PyException _ _ => false
  end.

(** A validation or not-found error: the answers 400, 404 and 422. *)
Definition spec_validation_or_not_found (e : exn) : bool :=
  match e with
  | HTTPError status _ =>
      (status =? 400)%Z || (status =? 404)%Z || (status =? 422)%Z
  | _ => false
  end.

(* ===================================================================== *)
(** ** Scenarios: concrete collaborators *)
(* ===================================================================== *)

(** The ASCII functions as string methods: what the interpreter's are on
    the ASCII texts of the scenarios. *)
Lemma ascii_lower_no_upper (s : string) : no_upper (ascii_lower s) = true.
Proof.
  induction s as [|c s IH]; [reflexivity|].
  cbn [ascii_lower]. unfold no_upper in *. cbn [list_ascii_of_string forallb].
  rewrite IH, andb_true_r.
  destruct c as [[] [] [] [] [] [] [] []]; reflexivity.
Qed.

Definition ascii_text : Unicode :=
  {| str_lower := ascii_lower;
     str_strip := ascii_strip;
     str_title := ascii_title;
     lower_no_upper := ascii_lower_no_upper;
     lower_ascii := fun _ _ => eq_refl;
     title_ascii := fun _ _ => eq_refl |}.

(** Collaborators of a project "p1" named "shopping" without sections:
    [tasks_answer] is what listing the tasks gives, [chat] what the chat
    completion gives, [parsed] what [eval] makes of it, [cfg] the
    categories; every other call succeeds. *)
Definition scenario_env (tasks_answer : list event -> result (list Task.t))
    (chat : result string) (parsed : result (dict (list string)))
    (cfg : dict CategoryConfig) : Env :=
  {| api_get_project := fun _ _ => inl (HTTPError 404 "Not Found");
     api_get_projects := fun _ => inr [Project.mk "p1" "shopping"];
     api_add_project := fun _ nm => inr (Project.mk "p2" nm);
     api_get_sections := fun _ _ => inr [];
     api_add_section := fun _ _ nm => inr (TSection.mk ("section of " ++ nm) nm);
     api_get_tasks := fun h _ => tasks_answer h;
     api_add_task := fun _ c _ sec _ _ => inr (Task.mk "new" c sec None false);
     api_update_task := fun _ _ _ => inr true;
     api_delete_task := fun _ _ => inr true;
     unicode := ascii_text;
     OpenAI_init := fun _ => None;
     api_chat_completions_create := fun _ _ _ _ => chat;
     py_eval := fun _ => parsed;
     load_categories := fun _ => inr cfg;
     now_isoformat := fun _ => "2024-05-01T10:00:00";
     utcnow := fun _ => "2024-05-01T08:00:00";
     json_chunks := fun _ _ => ["{"; "}"];
     fs_fault := fun _ _ => None |}.

Definition scenario_settings : Settings :=
  {| TODOIST_SHOPPING_PROJECT_NAME := "shopping";
     TODOIST_SHOPPING_PROJECT_ID := None;
     TODOIST_SYSTEM_PROJECT_ID := None;
     OPENAI_MODEL := "gpt-4o-mini";
     STATE_FILE := {| parent := ["data"]; name := "sync_state.json" |};
     ERROR_HANDLING_MODE := "log" |}.

Definition scenario_categories : dict CategoryConfig :=
  [("produce", {| emoji := "P"; keywords := ["apple"; "banana"] |});
   ("dairy", {| emoji := "D"; keywords := ["milk"] |})].

(** A fresh process: no history, the initial state, no file. *)
Definition fresh_world : World :=
  {| history := []; state := SyncState_init; files := fun _ => None |}.

(** The answer of the remote list to an unknown project. *)
Definition not_found_error : exn :=
  HTTPError 404 "404 Client Error: Not Found for url".

Definition not_found_env : Env :=
  scenario_env (fun _ => inl not_found_error) (inr "{}") (inr [])
               scenario_categories.

(** A state file whose own suffix is [.tmp], holding an earlier state. *)
Definition tmp_state_file : Path := {| parent := ["data"]; name := "sync_state.tmp" |}.

Definition tmp_settings : Settings :=
  {| TODOIST_SHOPPING_PROJECT_NAME := "shopping";
     TODOIST_SHOPPING_PROJECT_ID := None;
     TODOIST_SYSTEM_PROJECT_ID := None;
     OPENAI_MODEL := "gpt-4o-mini";
     STATE_FILE := tmp_state_file;
     ERROR_HANDLING_MODE := "log" |}.

Definition saved_before : World :=
  {| history := []; state := SyncState_init;
     files := fs_write (fun _ => None) tmp_state_file "earlier state" |}.

(** Collaborators whose file system refuses every write (a full disk). *)
Definition disk_full_env : Env :=
  {| api_get_project := fun _ _ => inl (HTTPError 404 "Not Found");
     api_get_projects := fun _ => inr [];
     api_add_project := fun _ nm => inr (Project.mk "p2" nm);
     api_get_sections := fun _ _ => inr [];
     api_add_section := fun _ _ nm => inr (TSection.mk nm nm);
     api_get_tasks := fun _ _ => inr [];
     api_add_task := fun _ c _ sec _ _ => inr (Task.mk "new" c sec None false);
     api_update_task := fun _ _ _ => inr true;
     api_delete_task := fun _ _ => inr true;
     unicode := ascii_text;
     OpenAI_init := fun _ => None;
     api_chat_completions_create := fun _ _ _ _ => inr "{}";
     py_eval := fun _ => inr [];
     load_categories := fun _ => inr [];
     now_isoformat := fun _ => "2024-05-01T10:00:00";
     utcnow := fun _ => "2024-05-01T08:00:00";
     json_chunks := fun _ _ => ["{"; "}"];
     fs_fault := fun _ op =>
       match op with
       | Write _ _ => Some (PyException "OSError" "No space left on device")
       | _ => None
       end |}.

(** An item whose content contains the name of another product. *)
Definition apple_juice : Task.t := Task.mk "7" "Apple juice" None None false.



(** An item no configured category fits, and a response that files it
    under the catch-all category of the prompt. *)
Definition widget : Task.t := Task.mk "3" "Unknown widget" None None false.

Definition widget_env : Env :=
  scenario_env (fun _ => inr [widget]) (inr "{...}")
               (inr [("Other", ["Unknown widget"])]) scenario_categories.

(** One new item on the list, and a classification service that is down. *)
Definition milk : Task.t := Task.mk "2" "Milk" None None false.

Definition outage : exn := PyException "APIConnectionError" "Connection error.".

Definition outage_env : Env :=
  scenario_env (fun _ => inr [milk]) (inl outage) (inr []) scenario_categories.

(** The same item, and a response that is no structured data. *)
Definition garbled : exn := PyException "SyntaxError" "invalid syntax".

Definition garbled_env : Env :=
  scenario_env (fun _ => inr [milk]) (inr "Sorry, I cannot help with that.")
               (inl garbled) scenario_categories.

(** A list with "Milk" in a section, the same product once more without a
    section, and a new item; the response files the new item. *)
Definition shelved_milk : Task.t := Task.mk "1" "Milk" (Some "s2") None false.

Definition milk_again : Task.t := Task.mk "5" "  MILK " None None false.

Definition bread : Task.t := Task.mk "6" "Bread" None None false.

Definition duplicate_env : Env :=
  scenario_env (fun _ => inr [shelved_milk; milk_again; bread]) (inr "{...}")
               (inr [("Produce", ["Bread"])]) scenario_categories.

(** A stored snapshot of two tasks, and the same snapshot fetched in the
    other order. *)
Definition apple_snapshot : TaskSnapshot :=
  {| content := "Apple"; section_id := Some "s1"; is_completed := false |}.

Definition milk_snapshot : TaskSnapshot :=
  {| content := "Milk"; section_id := None; is_completed := false |}.

Definition stored_two : SyncState :=
  {| tasks_state := [("1", apple_snapshot); ("2", milk_snapshot)];
     last_sync := Some "2024-05-01T08:00:00" |}.

Definition fetched_two : dict TaskSnapshot :=
  [("2", milk_snapshot); ("1", apple_snapshot)].

(* ===================================================================== *)
(** ** The rest of state.py and sync.py *)
(* ===================================================================== *)

(** What [json.load(f)] delivers for a state file that [save] has written,
    as far as [load] reads it: the snapshots under ['tasks'] and the text
    under ['last_sync'], each possibly absent.  [SyncState] holds a
    dictionary of snapshots, so this is the only data [load] is followed
    on: a file with another value under ['tasks'] (a list, a string, an
    object of another shape), which the code stores as it is, is outside
    the embedding. *)
Record LoadedData := {
  loaded_tasks : option (dict TaskSnapshot);
  loaded_last_sync : option string
}.

(** The collaborators of [load]. *)
Record Reader := {
  (** an [OSError] of [open(state_file, 'r')] or of the read *)
  read_fault : list event -> Path -> option exn;
  (** [json.load]: [inl] for a text that is no JSON *)
  json_load : string -> result LoadedData;
  (** [datetime.fromisoformat] *)
  fromisoformat : string -> result datetime
}.

Section Rest.
Variable env : Env.
Variable settings : Settings.
Variable reader : Reader.

(** [self.state_file.exists()] *)
Definition file_exists (p : Path) : M bool :=
  fun w => (w, inr (match files w p with Some _ => true | None => false end)).

(** [open(p, 'r')] and the read of the whole file. *)
Definition read_file (p : Path) : M string :=
  fun w =>
    match read_fault reader (history w) p with
    | Some e => (w, inl e)
    | None =>
        match files w p with
        | Some text => (w, inr text)
        | None => (w, inl (PyException "FileNotFoundError" "No such file or directory"))
        end
    end.

(** An outcome of a pure library function, raised or returned. *)
Definition lift {A} (r : result A) : M A := fun w => (w, r).

(** [SyncState.load] *)
Definition load : M unit :=
  let state_file := STATE_FILE settings in
  try_except
    (present <- file_exists state_file ;;
     when present
       (text <- read_file state_file ;;
        data <- lift (json_load reader text) ;;
        self <- get_state ;;
        put_state {| tasks_state := match loaded_tasks data with
                                    | Some tasks => tasks
                                    | None => []
                                    end;
                     last_sync := last_sync self |} ;;
        (if truthy (loaded_last_sync data) then
           stamp <- lift (fromisoformat reader
                            (str_of_option (loaded_last_sync data))) ;;
           self <- get_state ;;
           put_state {| tasks_state := tasks_state self; last_sync := Some stamp |}
         else ret tt) ;;
        self <- get_state ;;
        log DEBUG ("Loaded state with "
                   ++ str_of_nat (List.length (tasks_state self)) ++ " tasks")))
    (fun e =>
       log ERROR ("Failed to load state from " ++ path_str state_file
                  ++ ": " ++ str e) ;;
       put_state {| tasks_state := []; last_sync := None |}).

(** [ShoppingListSync.__init__], as far as the state goes: a new
    [SyncState], then [load]. *)
Definition ShoppingListSync_init : M unit :=
  put_state SyncState_init ;;
  load.

(** [ShoppingListSync.health_check] *)
Definition health_check : M bool :=
  try_except
    (log INFO "Running health check..." ;;
     project_id <- _get_shopping_project_id env settings ;;
     if negb (truthy project_id) then
       log ERROR ("Health check failed: Shopping list project '"
                  ++ TODOIST_SHOPPING_PROJECT_NAME settings ++ "' not found") ;;
       ret false
     else
       let pid := str_of_option project_id in
       project <- remote (get_project pid) (fun h => api_get_project env h pid) ;;
       log INFO ("✓ Connected to Todoist project: " ++ Project.name project
                 ++ " (ID: " ++ Project.id project ++ ")") ;;
       sections <- remote (get_sections pid) (fun h => api_get_sections env h pid) ;;
       log INFO ("✓ Found " ++ str_of_nat (List.length sections)
                 ++ " sections in project") ;;
       log INFO "Health check passed!" ;;
       ret true)
    (fun e =>
       log ERROR ("Health check failed: " ++ str e) ;;
       log ERROR (str e) ;;
       ret false).

End Rest.

(* ===================================================================== *)
(** ** What a computation leaves alone *)
(* ===================================================================== *)

(** The computation changes neither the sync state nor the files. *)
Definition keeps_state_files {A} (m : M A) : Prop :=
  forall w, state (fst (m w)) = state w /\ files (fst (m w)) = files w.

(** The computation only adds events to the history, all of them in [P]. *)
Definition emits {A} (P : event -> Prop) (m : M A) : Prop :=
  forall w, exists evs,
    history (fst (m w)) = (history w ++ evs)%list /\ Forall P evs.

(** The event reads the remote list, writes to the log or sleeps: it
    changes nothing, neither remotely nor on disk. *)
Definition read_only (ev : event) : Prop :=
  match ev with
  | Call (get_project _) | Call get_projects | Call (get_sections _)
  | Call (get_tasks _) => True
  | Call _ => False
  | Log _ _ | Sleep _ => True
  | Fs _ => False
  end.

(** The event does not change a task: no creation, move or deletion. *)
Definition spares_tasks (ev : event) : Prop :=
  match ev with
  | Call (add_task _ _ _ _ _) | Call (update_task _ _) | Call (delete_task _) => False
  | _ => True
  end.

(** A move or a deletion among the events concerns one of the tasks. *)
Definition touches_only (items : list Task.t) (ev : event) : Prop :=
  match ev with
  | Call (update_task task_id _) | Call (delete_task task_id) =>
      In task_id (map Task.id items)
  | _ => True
  end.

(** No upper-case letter and no space: what a category key needs to be
    found again under its display name. *)
Definition plain_key (key : string) : Prop :=
  Forall (fun c => is_upper c = false /\ c <> " "%char) (list_ascii_of_string key).

(** Where a cycle started in [w] may end, in [w'] with the outcome [r]:
    with the state and the files as they were; or with a snapshot that
    differs from the stored one in memory, and then on disk too if the
    cycle returns, while a cycle that raises has left the state file alone
    (for a state file whose suffix is not [.tmp]). *)
Definition commit_consistent (env : Env) (settings : Settings)
    (w w' : World) (r : result unit) : Prop :=
  (state w' = state w /\ files w' = files w)
  \/ exists current_state stamp,
       has_changed (state w) current_state = true
       /\ state w' = update (state w) current_state stamp
       /\ match r with
          | inr _ =>
              files w' (STATE_FILE settings)
              = Some (String.concat "" (json_chunks env current_state (Some stamp)))
          | inl _ =>
              suffix (name (STATE_FILE settings)) <> ".tmp" ->
              files w' (STATE_FILE settings) = files w (STATE_FILE settings)
          end.

(** A process that has committed one task, and a reader that decodes what
    [scenario_env] writes for it. *)
Definition committed_world : World :=
  {| history := [];
     state := {| tasks_state := [("2", milk_snapshot)];
                 last_sync := Some "2024-05-01T08:00:00" |};
     files := fun _ => None |}.

Definition echo_reader : Reader :=
  {| read_fault := fun _ _ => None;
     json_load := fun _ =>
       inr {| loaded_tasks := Some [("2", milk_snapshot)];
              loaded_last_sync := Some "2024-05-01T08:00:00" |};
     fromisoformat := fun text => inr text |}.

(** The entry of the snapshot for one task. *)
Definition snapshot_entry (task : Task.t) : string * TaskSnapshot :=
  (Task.id task,
   {| content := Task.content task;
      section_id := Task.section_id task;
      is_completed := Task.is_completed task |}).

(** The name of the section of a configured category: its emoji and its
    display name. *)
Definition section_name_of (env : Env) (entry : string * CategoryConfig)
  : string :=
  emoji (snd entry) ++ " " ++ category_display_name env (fst entry).

(** The category has no section among the listed ones. *)
Definition missing_section (env : Env) (sections : list TSection.t)
    (entry : string * CategoryConfig) : bool :=
  match find (fun s => String.eqb (TSection.name s) (section_name_of env entry))
             sections with
  | Some _ => false
  | None => true
  end.

(** Settings that ask for escalation tasks in the project "admin". *)
Definition escalating_settings : Settings :=
  {| TODOIST_SHOPPING_PROJECT_NAME := "shopping";
     TODOIST_SHOPPING_PROJECT_ID := None;
     TODOIST_SYSTEM_PROJECT_ID := Some "admin";
     OPENAI_MODEL := "gpt-4o-mini";
     STATE_FILE := {| parent := ["data"]; name := "sync_state.json" |};
     ERROR_HANDLING_MODE := "both" |}.

(** An escalation task that is still open. *)
Definition open_marker : Task.t :=
  Task.mk "9" "Shopping List Sync Error (yesterday)" None None false.

Definition marker_env : Env :=
  scenario_env (fun _ => inr [open_marker]) (inl outage) (inr [])
               scenario_categories.

(** The two sections of [scenario_categories], already there. *)
Definition scenario_sections : list TSection.t :=
  [TSection.mk "s1" "P Produce"; TSection.mk "s2" "D Dairy"].

(** The event belongs to provisioning: a look at the projects or at the
    sections, the creation of one, or a line of the log. *)
Definition provisions (ev : event) : Prop :=
  match ev with
  | Call (get_project _) | Call get_projects | Call (add_project _)
  | Call (get_sections _) | Call (add_section _ _) | Log _ _ => True
  | _ => False
  end.

(** The computation only adds events to the history.  Either it moves
    and deletes nothing; or, after provisioning, it lists the tasks of a
    project, and every move and every deletion it makes afterwards concerns
    a task that this first answer shows without section and without
    parent. *)
Definition touches_fetched (env : Env) {A} (m : M A) : Prop :=
  forall w, exists evs,
    history (fst (m w)) = (history w ++ evs)%list
    /\ (Forall (touches_only []) evs
        \/ exists before project_id tasks later,
             evs = (before ++ Call (get_tasks project_id) :: later)%list
             /\ Forall provisions before
             /\ api_get_tasks env (history w ++ before)%list project_id = inr tasks
             /\ Forall (touches_only (filter unlabeled tasks)) later).

(** The event creates no project. *)
Definition creates_no_project (ev : event) : Prop :=
  match ev with Call (add_project _) => False | _ => True end.

(** Any event at all: what is left to say of a computation that only adds
    to the history. *)
Definition any_event (ev : event) : Prop := True.

(** The event is no pause. *)
Definition no_sleep (ev : event) : Prop :=
  match ev with Sleep _ => False | _ => True end.

(** The event is no pause, or a pause of four seconds. *)
Definition pause_of_four (ev : event) : Prop :=
  match ev with Sleep seconds => seconds = 4%Z | _ => True end.

(** The computation only adds events to the history.  Either all it does
    is read, and the sync state and the files are as before; or, having
    only read so far, it has listed the tasks of a project and received an
    answer whose snapshot differs from the stored one. *)
Definition reads_until_change (env : Env) {A} (m : M A) : Prop :=
  forall w, exists evs,
    history (fst (m w)) = (history w ++ evs)%list
    /\ (Forall read_only evs
        /\ state (fst (m w)) = state w /\ files (fst (m w)) = files w
        \/ exists before project_id tasks later,
             evs = (before ++ Call (get_tasks project_id) :: later)%list
             /\ Forall read_only before
             /\ api_get_tasks env (history w ++ before)%list project_id = inr tasks
             /\ has_changed (state w) (tasks_snapshot tasks) = true).







(* ===================================================================== *)
(** * Properties *)
(* ===================================================================== *)

(** ** Dictionaries *)

Lemma option_string_eqb_eq a b : option_string_eqb a b = true <-> a = b.
Proof.
  destruct a as [x|], b as [y|]; simpl; try (split; congruence).
  rewrite String.eqb_eq. split; congruence.
Qed.

Lemma snapshot_eqb_eq a b : snapshot_eqb a b = true <-> a = b.
Proof.
  unfold snapshot_eqb. rewrite !andb_true_iff, String.eqb_eq,
    option_string_eqb_eq, Bool.eqb_true_iff.
  destruct a, b; simpl. split.
  - intros [[-> ->] ->]. reflexivity.
  - intros H. injection H as -> -> ->. auto.
Qed.

Section DictFacts.
Context {V : Type}.
Implicit Types (d : dict V) (k : string) (v : V).

Lemma dict_get_In d k v : dict_get d k = Some v -> In (k, v) d.
Proof.
  induction d as [|[k' v'] d IH]; simpl; [discriminate|].
  destruct (String.eqb_spec k' k) as [->|Hne].
  - intros [= ->]. now left.
  - intros H. right. auto.
Qed.

Lemma dict_get_None d k : dict_get d k = None <-> ~ In k (keys d).
Proof.
  induction d as [|[k' v'] d IH]; simpl.
  - tauto.
  - destruct (String.eqb_spec k' k) as [->|Hne].
    + split; [discriminate | intros H; exfalso; apply H; now left].
    + rewrite IH. split; [intros H [?|?]; auto | tauto].
Qed.

Lemma In_dict_get d k v : wf_dict d -> In (k, v) d -> dict_get d k = Some v.
Proof.
  unfold wf_dict, keys.
  induction d as [|[k' v'] d IH]; simpl; [tauto|].
  intros Hnd Hin. inversion Hnd as [|? ? Hnotin Hnd']; subst.
  destruct Hin as [[= -> ->]|Hin].
  - now rewrite String.eqb_refl.
  - destruct (String.eqb_spec k' k) as [->|Hne]; [|auto].
    exfalso. apply Hnotin. change k with (fst (k, v)). now apply in_map.
Qed.

Lemma dict_get_perm d d' k :
  wf_dict d -> Permutation d d' -> dict_get d k = dict_get d' k.
Proof.
  intros Hwf Hp.
  assert (Hwf' : wf_dict d').
  { unfold wf_dict, keys in *.
    eapply Permutation_NoDup; [apply Permutation_map, Hp | exact Hwf]. }
  destruct (dict_get d k) as [v|] eqn:E.
  - symmetry. apply In_dict_get; [exact Hwf'|].
    eapply Permutation_in; [exact Hp|]. now apply dict_get_In.
  - symmetry. apply dict_get_None. apply dict_get_None in E.
    intros Hin. apply E. unfold keys in *.
    eapply Permutation_in; [apply Permutation_sym, Permutation_map, Hp | exact Hin].
Qed.

Lemma keys_incl_of_gets d d' :
  (forall k v, dict_get d k = Some v -> exists v', dict_get d' k = Some v') ->
  wf_dict d -> incl (keys d) (keys d').
Proof.
  intros H Hwf k Hin.
  destruct (dict_get d k) as [v|] eqn:E.
  - destruct (H _ _ E) as [v' E'].
    apply dict_get_In in E'. change k with (fst (k, v')). now apply in_map.
  - apply dict_get_None in E. contradiction.
Qed.

Variable veqb : V -> V -> bool.
Hypothesis veqb_eq : forall a b, veqb a b = true <-> a = b.

(** CPython's comparison decides equality of the two finite maps. *)
Lemma dict_eqb_true_iff d d' :
  wf_dict d -> wf_dict d' ->
  dict_eqb veqb d d' = true <-> forall k, dict_get d k = dict_get d' k.
Proof.
  intros Hwf Hwf'. unfold dict_eqb.
  rewrite andb_true_iff, Nat.eqb_eq, forallb_forall. split.
  - intros [Hlen Hall].
    assert (Hsub : forall k v, dict_get d k = Some v -> dict_get d' k = Some v).
    { intros k v E. apply dict_get_In in E. specialize (Hall _ E). simpl in Hall.
      destruct (dict_get d' k) as [v'|]; [|discriminate].
      apply veqb_eq in Hall. now subst. }
    intros k. destruct (dict_get d k) as [v|] eqn:E.
    + symmetry. now apply Hsub.
    + symmetry. apply dict_get_None. apply dict_get_None in E.
      intros Hin. apply E.
      assert (Hincl : incl (keys d) (keys d')).
      { apply keys_incl_of_gets; [|exact Hwf]. intros k0 v0 E0. eauto. }
      assert (Hback : incl (keys d') (keys d)).
      { apply NoDup_length_incl; [exact Hwf | | exact Hincl].
        unfold keys. rewrite !length_map. lia. }
      now apply Hback.
  - intros Heq. split.
    + assert (Hp : Permutation (keys d) (keys d')).
      { apply NoDup_Permutation; [exact Hwf | exact Hwf' |].
        intros k. split; intros Hin.
        - destruct (dict_get d' k) eqn:E.
          + apply dict_get_In in E. change k with (fst (k, v)). now apply in_map.
          + rewrite <- Heq in E. apply dict_get_None in E. contradiction.
        - destruct (dict_get d k) eqn:E.
          + apply dict_get_In in E. change k with (fst (k, v)). now apply in_map.
          + rewrite Heq in E. apply dict_get_None in E. contradiction. }
      apply Permutation_length in Hp. unfold keys in Hp.
      now rewrite !length_map in Hp.
    + intros [k v] Hin. simpl.
      rewrite <- Heq, (In_dict_get _ _ _ Hwf Hin). now apply veqb_eq.
Qed.
End DictFacts.

(** ** C4: [has_changed] *)

Lemma has_changed_false_iff self current_state :
  wf_dict current_state -> wf_dict (tasks_state self) ->
  has_changed self current_state = false <->
  forall task_id, dict_get current_state task_id = dict_get (tasks_state self) task_id.
Proof.
  intros H1 H2. unfold has_changed. rewrite negb_false_iff.
  now apply dict_eqb_true_iff; [apply snapshot_eqb_eq| |].
Qed.

(** C4. [has_changed] is structural equality of the two task-id -> snapshot
    mappings: it is [false] for a candidate that is the stored mapping up to
    the order of its keys, and [true] as soon as a task id is in one mapping
    only, or a task differs in content, section or completion flag. *)
Theorem has_changed_structural (self : SyncState) (current_state : dict TaskSnapshot) :
  wf_dict current_state -> wf_dict (tasks_state self) ->
  (Permutation current_state (tasks_state self) ->
     has_changed self current_state = false)
  /\ (forall task_id,
        dict_mem current_state task_id <> dict_mem (tasks_state self) task_id ->
        has_changed self current_state = true)
  /\ (forall task_id new old,
        dict_get current_state task_id = Some new ->
        dict_get (tasks_state self) task_id = Some old ->
        content new <> content old
        \/ section_id new <> section_id old
        \/ is_completed new <> is_completed old ->
        has_changed self current_state = true)
  /\ (has_changed self current_state = false <->
      forall task_id,
        dict_get current_state task_id = dict_get (tasks_state self) task_id).
Proof.
  intros Hc Hs.
  pose proof (has_changed_false_iff self current_state Hc Hs) as Hiff.
  repeat split.
  - intros Hp. apply Hiff. intros k. now apply dict_get_perm.
  - intros k Hne. apply not_false_iff_true. intros Hf.
    apply Hne. unfold dict_mem. now rewrite (proj1 Hiff Hf k).
  - intros k new old En Eo Hd. apply not_false_iff_true. intros Hf.
    pose proof (proj1 Hiff Hf k) as E. rewrite En, Eo in E.
    injection E as ->. destruct Hd as [H|[H|H]]; now apply H.
  - apply Hiff.
  - apply Hiff.
Qed.

Lemma has_changed_structural_witness :
  wf_dict fetched_two
  /\ wf_dict (tasks_state stored_two)
  /\ has_changed stored_two fetched_two = false.
Proof.
  assert (H1 : wf_dict fetched_two).
  { unfold wf_dict. cbn. repeat constructor; cbn; intuition discriminate. }
  assert (H2 : wf_dict (tasks_state stored_two)).
  { unfold wf_dict. cbn. repeat constructor; cbn; intuition discriminate. }
  split; [exact H1|]. split; [exact H2|].
  apply (proj1 (has_changed_structural stored_two fetched_two H1 H2)).
  apply perm_swap.
Defined.

(** ** The monad *)

Lemma calls_of_app h1 h2 : calls_of (h1 ++ h2)%list = (calls_of h1 ++ calls_of h2)%list.
Proof. unfold calls_of. now rewrite flat_map_app. Qed.


(** Unfolds the monadic layer of a goal. *)
Ltac run :=
  repeat progress
    (unfold todoist_get_tasks, todoist_add_task, todoist_delete_task,
       todoist_update_task, datetime_now, try_except, when, log, emit, bind,
       attempt, ret, raise, remote, get_state, put_state in *);
  cbn [fst snd history state files] in *.

(** ** C10: nothing to categorise *)

(** C10. [categorize_items] called with an empty list of items returns the
    empty mapping at once: the world, and so the history of remote calls,
    is left as it was, whatever the classification service would answer. *)
Theorem categorize_items_empty (env : Env) (settings : Settings)
    (categories_config : dict CategoryConfig) (w : World) :
  categorize_items env settings [] categories_config w = (w, inr []).
Proof. reflexivity. Qed.

(** ** C9: the escalation task *)

Lemma create_error_task_total env settings error_message w :
  exists w', create_error_task env settings error_message w = (w', inr tt)
             /\ state w' = state w /\ files w' = files w.
Proof.
  unfold create_error_task.
  destruct (mode_in settings ["task"; "both"]); cbn [negb];
    [|eexists; repeat split; reflexivity].
  destruct (truthy (TODOIST_SYSTEM_PROJECT_ID settings)); cbn [negb];
    [|eexists; repeat split; reflexivity].
  run. destruct (api_get_tasks env _ _) as [e|tasks];
    [eexists; repeat split; reflexivity|].
  destruct (find _ tasks); [eexists; repeat split; reflexivity|].
  run. destruct (api_add_task env _ _ _ _ _ _);
    eexists; repeat split; reflexivity.
Qed.

(** C9. [create_error_task] never raises: it always returns [None], and it
    leaves the sync state and the files alone.  When the mode is neither
    'task' nor 'both', or no administrative project is configured, it makes
    no remote call.  A failure of the listing, or of the creation of the
    marker task, ends in an ERROR line of the log. *)
Theorem create_error_task_never_raises (env : Env) (settings : Settings)
    (error_message : string) (w : World) :
  let system_project := str_of_option (TODOIST_SYSTEM_PROJECT_ID settings) in
  let listed := (history w ++ [Call (get_tasks system_project)])%list in
  let new_task :=
    add_task (error_task_content (now_isoformat env listed) error_message)
             system_project None (Some 4%Z) (Some "today") in
  exists w',
    create_error_task env settings error_message w = (w', inr tt)
    /\ state w' = state w /\ files w' = files w
    /\ (escalation_enabled settings = false ->
        calls_of (history w') = calls_of (history w))
    /\ (forall e,
          escalation_enabled settings = true ->
          api_get_tasks env (history w) system_project = inl e ->
          history w'
          = (listed ++ [Log ERROR ("Failed to create error task in Todoist: "
                                   ++ str e)])%list)
    /\ (forall tasks e,
          escalation_enabled settings = true ->
          api_get_tasks env (history w) system_project = inr tasks ->
          open_error_task tasks = None ->
          api_add_task env listed
            (error_task_content (now_isoformat env listed) error_message)
            system_project None (Some 4%Z) (Some "today") = inl e ->
          history w'
          = (listed ++ [Call new_task;
                        Log ERROR ("Failed to create error task in Todoist: "
                                   ++ str e)])%list).
Proof.
  intros system_project listed new_task.
  unfold escalation_enabled, create_error_task, open_error_task.
  destruct (mode_in settings ["task"; "both"]); cbn [negb andb].
  2:{ eexists; repeat split; try reflexivity; discriminate. }
  destruct (truthy (TODOIST_SYSTEM_PROJECT_ID settings)); cbn [negb].
  2:{ eexists; repeat split; try reflexivity; try discriminate.
      intros _. run. rewrite calls_of_app. cbn. now rewrite app_nil_r. }
  run. fold system_project. fold listed.
  destruct (api_get_tasks env (history w) system_project) as [e|tasks].
  { eexists; repeat split; try reflexivity; try discriminate.
    intros e' _ [= <-]. reflexivity. }
  destruct (find _ tasks) eqn:Efind.
  { eexists; repeat split; try reflexivity; try discriminate.
    intros tasks' e' _ [= <-]. congruence. }
  run. fold (error_task_content (now_isoformat env listed) error_message).
  destruct (api_add_task env listed _ _ _ _ _) as [e|t] eqn:Eadd.
  - eexists; repeat split; try reflexivity; try discriminate.
    intros tasks' e' _ _ _ [= <-]. cbn [history]. unfold new_task.
    now rewrite <- app_assoc.
  - eexists; repeat split; try reflexivity; try discriminate.
Qed.

(** ** C2: the retry decorator *)

Lemma retry_if_exception_type_iff e :
  retry_if_exception_type e = true <->
  (exists status msg, e = HTTPError status msg)
  \/ (exists msg, e = ConnectionError msg)
  \/ (exists msg, e = ConnectTimeout msg).
Proof.
  destruct e; simpl; split; intros H; try reflexivity; try discriminate; eauto.
  - destruct H as [(? & ? & ?)|[(? & ?)|(? & ?)]]; discriminate.
  - destruct H as [(? & ? & ?)|[(? & ?)|(? & ?)]]; discriminate.
Qed.

(** C2 as the specification words it fails: the answer 404 of the remote list is a
    not-found error and no server or transport error, yet the decorated
    [_get_current_tasks_state] asks for the tasks three times before it
    lets the error through. *)
Lemma not_found_error_is_retried :
  spec_validation_or_not_found not_found_error = true
  /\ spec_transient not_found_error = false
  /\ retry_if_exception_type not_found_error = true
  /\ calls_of (history (fst (_get_current_tasks_state not_found_env "p1" fresh_world)))
     = [get_tasks "p1"; get_tasks "p1"; get_tasks "p1"]
  /\ snd (_get_current_tasks_state not_found_env "p1" fresh_world)
     = inl not_found_error.
Proof.
  repeat match goal with |- _ /\ _ => split end; vm_compute; reflexivity.
Qed.

(** One call of [_get_current_tasks_state] before decoration: it asks for
    the tasks once. *)
Lemma get_tasks_body_calls env project_id w :
  calls_of (history (fst (_get_current_tasks_state_body env project_id w)))
  = (calls_of (history w) ++ [get_tasks project_id])%list.
Proof.
  unfold _get_current_tasks_state_body. run.
  destruct (api_get_tasks env (history w) project_id); cbn [fst history];
    rewrite ?calls_of_app; cbn; now rewrite ?app_nil_r.
Qed.

Lemma before_sleep_calls n e w :
  calls_of (history (fst (before_sleep n e w))) = calls_of (history w).
Proof.
  unfold before_sleep. run. rewrite !calls_of_app. cbn. now rewrite !app_nil_r.
Qed.

(** Decorated, it asks for the tasks once, twice or three times. *)
Lemma get_tasks_attempts env project_id w :
  exists n,
    1 <= n <= 3
    /\ calls_of (history (fst (_get_current_tasks_state env project_id w)))
       = (calls_of (history w) ++ repeat (get_tasks project_id) n)%list.
Proof.
  unfold _get_current_tasks_state, create_todoist_retry_decorator.
  set (fn := _get_current_tasks_state_body env project_id).
  cbn [retry_loop]. unfold bind, attempt.
  unfold ret, raise.
  pose proof (get_tasks_body_calls env project_id w) as C1. fold fn in C1.
  destruct (fn w) as [w1 [e1|a]]; cbn [fst] in C1.
  2:{ exists 1. split; [lia|]. exact C1. }
  destruct (retry_if_exception_type e1); cbn [negb]; unfold ret, raise.
  2:{ exists 1. split; [lia|]. exact C1. }
  cbn [stop_after_attempt Nat.leb].
  set (w1' := fst (before_sleep 1 e1 w1)).
  assert (B1 : calls_of (history w1') = calls_of (history w1))
    by apply before_sleep_calls.
  change (before_sleep 1 e1 w1) with (w1', @inr exn unit tt). cbn iota.
  pose proof (get_tasks_body_calls env project_id w1') as C2. fold fn in C2.
  destruct (fn w1') as [w2 [e2|a]]; cbn [fst] in C2.
  2:{ exists 2. split; [lia|]. cbn [fst]. rewrite C2, B1, C1, <- app_assoc. reflexivity. }
  destruct (retry_if_exception_type e2); cbn [negb]; unfold ret, raise.
  2:{ exists 2. split; [lia|]. cbn [fst]. rewrite C2, B1, C1, <- app_assoc. reflexivity. }
  cbn [stop_after_attempt Nat.leb].
  set (w2' := fst (before_sleep 2 e2 w2)).
  assert (B2 : calls_of (history w2') = calls_of (history w2))
    by apply before_sleep_calls.
  change (before_sleep 2 e2 w2) with (w2', @inr exn unit tt). cbn iota.
  pose proof (get_tasks_body_calls env project_id w2') as C3. fold fn in C3.
  exists 3. split; [lia|].
  destruct (fn w2') as [w3 [e3|a]]; cbn [fst] in C3 |- *.
  - destruct (retry_if_exception_type e3); cbn [negb fst];
      rewrite C3, B2, C2, B1, C1, <- !app_assoc; reflexivity.
  - rewrite C3, B2, C2, B1, C1, <- !app_assoc. reflexivity.
Qed.

(** C2, as the code has it.  A failed attempt is retried exactly when the
    exception is an [HTTPError] (whatever its status code, the answers 400
    and 404 included) or a [ConnectionError] (with its subclasses); an
    exception of any other type is not retried.  The decorated function is
    called at most three times: the outcome of the first call is final if
    it is a value or an exception of another type, else the outcome of the
    second call is final under the same condition, else the outcome of the
    third call is final whatever it is -- a value gives overall success, an
    exception is raised unchanged.  So the decorated listing of the tasks
    asks the remote list once, twice or three times. *)
Theorem retry_policy {A : Type} (env : Env) (fn : M A) (w : World) :
  (forall e,
     retry_if_exception_type e = true <->
     (exists status msg, e = HTTPError status msg)
     \/ (exists msg, e = ConnectionError msg)
     \/ (exists msg, e = ConnectTimeout msg))
  /\ match fn w with
     | (w1, inr a) => create_todoist_retry_decorator fn w = (w1, inr a)
     | (w1, inl e1) =>
         if retry_if_exception_type e1 then
           match fn (fst (before_sleep 1 e1 w1)) with
           | (w2, inr a) => create_todoist_retry_decorator fn w = (w2, inr a)
           | (w2, inl e2) =>
               if retry_if_exception_type e2 then
                 create_todoist_retry_decorator fn w
                 = fn (fst (before_sleep 2 e2 w2))
               else create_todoist_retry_decorator fn w = (w2, inl e2)
           end
         else create_todoist_retry_decorator fn w = (w1, inl e1)
     end
  /\ (forall project_id,
        exists n,
          1 <= n <= 3
          /\ calls_of (history (fst (_get_current_tasks_state env project_id w)))
             = (calls_of (history w) ++ repeat (get_tasks project_id) n)%list).
Proof.
  split; [apply retry_if_exception_type_iff|].
  split; [|intros project_id; apply get_tasks_attempts].
  unfold create_todoist_retry_decorator. cbn [retry_loop].
  unfold bind, attempt.
  destruct (fn w) as [w1 [e1|a]]; [|reflexivity].
  destruct (retry_if_exception_type e1); cbn [negb]; [|reflexivity].
  cbn [stop_after_attempt Nat.leb].
  set (w1' := fst (before_sleep 1 e1 w1)).
  change (before_sleep 1 e1 w1) with (w1', @inr exn unit tt).
  cbn iota.
  destruct (fn w1') as [w2 [e2|a]]; [|reflexivity].
  destruct (retry_if_exception_type e2); cbn [negb]; [|reflexivity].
  cbn [stop_after_attempt Nat.leb].
  set (w2' := fst (before_sleep 2 e2 w2)).
  change (before_sleep 2 e2 w2) with (w2', @inr exn unit tt).
  cbn iota.
  destruct (fn w2') as [w3 [e3|a]]; [|reflexivity].
  destruct (retry_if_exception_type e3); reflexivity.
Qed.

(** ** C5: [save] *)

Lemma Path_eqb_eq p q : Path_eqb p q = true <-> p = q.
Proof.
  unfold Path_eqb. destruct p as [pp pn], q as [qp qn]; simpl.
  destruct (list_eq_dec string_dec pp qp) as [->|Hne]; simpl.
  - rewrite String.eqb_eq. split; [now intros -> | now intros [= ->]].
  - split; [discriminate | intros [= -> ->]; contradiction].
Qed.

Lemma Path_eqb_refl p : Path_eqb p p = true.
Proof. now apply Path_eqb_eq. Qed.

Lemma Path_eqb_neq p q : p <> q -> Path_eqb p q = false.
Proof.
  intros H. destruct (Path_eqb p q) eqn:E; [|reflexivity].
  apply Path_eqb_eq in E. contradiction.
Qed.

Lemma list_ascii_of_string_app s1 s2 :
  list_ascii_of_string (s1 ++ s2)
  = (list_ascii_of_string s1 ++ list_ascii_of_string s2)%list.
Proof. induction s1 as [|c s1 IH]; simpl; [reflexivity | now rewrite IH]. Qed.

Lemma string_length_list s : String.length s = List.length (list_ascii_of_string s).
Proof. induction s as [|c s IH]; simpl; [reflexivity | now rewrite IH]. Qed.

Lemma rfind_bound c l : (rfind c l < Z.of_nat (List.length l))%Z.
Proof.
  induction l as [|x l IH]; simpl List.length; cbn [rfind]; [lia|].
  destruct (0 <=? rfind c l)%Z; [lia|].
  destruct (Ascii.eqb x c); lia.
Qed.

(** The temporary file is another file, unless the state file already has
    the suffix [.tmp]. *)
Lemma with_suffix_tmp_neq state_file temp_file :
  suffix (name state_file) <> ".tmp" ->
  with_suffix state_file ".tmp" = Some temp_file ->
  temp_file <> state_file.
Proof.
  unfold with_suffix. intros Hsuf Hws Heq.
  destruct (String.eqb (name state_file) ""); [discriminate|].
  injection Hws as <-. apply (f_equal name) in Heq. simpl in Heq.
  apply (f_equal list_ascii_of_string) in Heq.
  destruct (String.eqb_spec (suffix (name state_file)) "") as [E|E].
  - rewrite list_ascii_of_string_app in Heq.
    apply (f_equal (@List.length ascii)) in Heq.
    rewrite length_app in Heq. simpl in Heq. lia.
  - apply Hsuf. unfold suffix in *.
    set (l := list_ascii_of_string (name state_file)) in *.
    pose proof (rfind_bound "."%char l) as Hb.
    destruct ((0 <? rfind "." l)%Z && (rfind "." l <? Z.of_nat (List.length l) - 1)%Z)
      eqn:Hc; [|now elim E].
    apply andb_true_iff in Hc. destruct Hc as [H0 H1].
    apply Z.ltb_lt in H0, H1.
    set (i := Z.to_nat (rfind "." l)) in *.
    assert (Hi : i <= List.length l) by (unfold i; lia).
    rewrite list_ascii_of_string_app, list_ascii_of_string_of_list_ascii in Heq.
    rewrite string_length_list, list_ascii_of_string_of_list_ascii in Heq.
    rewrite length_skipn in Heq.
    replace (List.length l - (List.length l - i)) with i in Heq by lia.
    rewrite <- (firstn_skipn i l) in Heq at 2.
    apply app_inv_head in Heq. rewrite <- Heq.
    apply string_of_list_ascii_of_string.
Qed.

Lemma exec_ops_app fs ops1 ops2 :
  exec_ops fs (ops1 ++ ops2)%list = exec_ops (exec_ops fs ops1) ops2.
Proof. unfold exec_ops. apply fold_left_app. Qed.

Lemma exec_ops_spares q ops fs :
  Forall (spares q) ops -> exec_ops fs ops q = fs q.
Proof.
  intros H. revert fs. induction H as [|op ops Hop _ IH]; intros fs; [reflexivity|].
  cbn [exec_ops fold_left]. fold (exec_ops (apply_op fs op) ops).
  now rewrite IH.
Qed.

Lemma spares_before_rename state_file temp_file chunks :
  temp_file <> state_file ->
  Forall (spares state_file)
    ([Mkdir (parent state_file); OpenW temp_file]
     ++ map (Write temp_file) chunks ++ [Close temp_file])%list.
Proof.
  intros Hne.
  assert (Hw : forall fs data, fs_write fs temp_file data state_file = fs state_file).
  { intros fs data. unfold fs_write. rewrite Path_eqb_neq; [reflexivity|].
    intros E. now apply Hne. }
  repeat constructor; try (intros fs; simpl; now rewrite ?Hw).
  apply Forall_app. split.
  - apply Forall_forall. intros op Hin. apply in_map_iff in Hin.
    destruct Hin as (chunk & <- & _). intros fs. simpl. apply Hw.
  - repeat constructor.
Qed.

Lemma save_ops_split state_file temp_file chunks :
  save_ops state_file temp_file chunks
  = (([Mkdir (parent state_file); OpenW temp_file]
      ++ map (Write temp_file) chunks ++ [Close temp_file])
     ++ [Replace temp_file state_file])%list.
Proof. unfold save_ops. simpl. now rewrite <- !app_assoc. Qed.

(** Stopping anywhere before the rename is done leaves the state file as
    it was. *)
Lemma crash_before_rename state_file temp_file chunks fs k :
  temp_file <> state_file ->
  k < List.length (save_ops state_file temp_file chunks) ->
  exec_ops fs (firstn k (save_ops state_file temp_file chunks)) state_file
  = fs state_file.
Proof.
  intros Hne Hk. rewrite save_ops_split in *.
  pose proof (spares_before_rename state_file temp_file chunks Hne) as H.
  set (before := ([Mkdir (parent state_file); OpenW temp_file]
                  ++ map (Write temp_file) chunks ++ [Close temp_file])%list) in *.
  rewrite length_app in Hk. cbn [List.length] in Hk.
  rewrite firstn_app.
  replace (k - List.length before) with 0 by lia.
  rewrite firstn_O, app_nil_r.
  apply exec_ops_spares.
  rewrite Forall_forall in *. intros op Hin. apply H.
  rewrite <- (firstn_skipn k before). apply in_or_app. now left.
Qed.

Lemma no_fault_app env h ops1 ops2 :
  no_fault env h (ops1 ++ ops2)%list
  = no_fault env h ops1 && no_fault env (h ++ map Fs ops1)%list ops2.
Proof.
  revert h. induction ops1 as [|op ops1 IH]; intros h; cbn [no_fault map app].
  - now rewrite app_nil_r.
  - destruct (fs_fault env h op); [reflexivity|].
    rewrite IH, <- app_assoc. reflexivity.
Qed.

Lemma fs_do_spares env q op w w' r :
  spares q op -> fs_do env op w = (w', r) -> files w' q = files w q.
Proof.
  unfold fs_do. intros Hs.
  destruct (fs_fault env (history w) op); [now intros [= <- _]|].
  destruct (missing_source (files w) op); [now intros [= <- _]|].
  intros [= <- _]. cbn [files]. apply Hs.
Qed.

Lemma fs_do_ok env op w w' :
  fs_do env op w = (w', inr tt) ->
  fs_fault env (history w) op = None
  /\ missing_source (files w) op = false
  /\ history w' = (history w ++ [Fs op])%list
  /\ state w' = state w
  /\ files w' = apply_op (files w) op.
Proof.
  unfold fs_do.
  destruct (fs_fault env (history w) op); [discriminate|].
  destruct (missing_source (files w) op); [discriminate|].
  intros [= <-]. repeat split.
Qed.

Lemma fs_do_state env op w w' r :
  fs_do env op w = (w', r) -> state w' = state w.
Proof.
  unfold fs_do.
  destruct (fs_fault env (history w) op); [now intros [= <- _]|].
  destruct (missing_source (files w) op); now intros [= <- _].
Qed.

Lemma write_chunks_spares env q p chunks w w' r :
  p <> q -> write_chunks env p chunks w = (w', r) -> files w' q = files w q.
Proof.
  intros Hne. revert w. induction chunks as [|chunk chunks IH]; intros w.
  - now intros [= <- _].
  - cbn [write_chunks]. unfold bind.
    destruct (fs_do env (Write p chunk) w) as [w1 [e|[]]] eqn:E.
    + intros [= <- _]. eapply fs_do_spares; [|exact E].
      intros fs. simpl. unfold fs_write. rewrite Path_eqb_neq; [reflexivity|].
      intros H. now apply Hne.
    + intros H. rewrite (IH _ H). eapply fs_do_spares; [|exact E].
      intros fs. simpl. unfold fs_write. rewrite Path_eqb_neq; [reflexivity|].
      intros H'. now apply Hne.
Qed.

Lemma write_chunks_ok env p chunks w w' :
  write_chunks env p chunks w = (w', inr tt) ->
  no_fault env (history w) (map (Write p) chunks) = true
  /\ history w' = (history w ++ map Fs (map (Write p) chunks))%list
  /\ state w' = state w
  /\ files w' = exec_ops (files w) (map (Write p) chunks).
Proof.
  revert w. induction chunks as [|chunk chunks IH]; intros w.
  - intros [= <-]. cbn. now rewrite app_nil_r.
  - cbn [write_chunks]. unfold bind.
    destruct (fs_do env (Write p chunk) w) as [w1 [e|[]]] eqn:E; [discriminate|].
    intros H. apply IH in H. apply fs_do_ok in E.
    destruct E as (Hf & _ & Hh & Hs & Hfs), H as (Hn & Hh' & Hs' & Hfs').
    cbn [map no_fault]. rewrite Hf, <- Hh. repeat split; try congruence.
    + rewrite Hh', Hh, <- app_assoc. reflexivity.
    + rewrite Hfs', Hfs. reflexivity.
Qed.

Lemma write_chunks_state env p chunks w w' r :
  write_chunks env p chunks w = (w', r) -> state w' = state w.
Proof.
  revert w. induction chunks as [|chunk chunks IH]; intros w.
  - now intros [= <- _].
  - cbn [write_chunks]. unfold bind.
    destruct (fs_do env (Write p chunk) w) as [w1 [e|[]]] eqn:E.
    + intros [= <- _]. eapply fs_do_state, E.
    + intros H. rewrite (IH _ H). eapply fs_do_state, E.
Qed.

Lemma append_nil_r s : s ++ "" = s.
Proof. induction s as [|c s IH]; simpl; congruence. Qed.

Lemma append_assoc s1 s2 s3 : (s1 ++ s2) ++ s3 = s1 ++ (s2 ++ s3).
Proof. induction s1 as [|c s1 IH]; simpl; congruence. Qed.

Lemma concat_cons chunk chunks :
  String.concat "" (chunk :: chunks) = chunk ++ String.concat "" chunks.
Proof. destruct chunks; simpl; [now rewrite append_nil_r | reflexivity]. Qed.

(** The content of a file that is written chunk after chunk. *)
Lemma exec_writes p chunks fs old :
  fs p = Some old ->
  exec_ops fs (map (Write p) chunks) p = Some (old ++ String.concat "" chunks).
Proof.
  revert fs old. induction chunks as [|chunk chunks IH]; intros fs old Hp.
  - cbn. now rewrite Hp, append_nil_r.
  - cbn [map exec_ops fold_left].
    fold (exec_ops (apply_op fs (Write p chunk)) (map (Write p) chunks)).
    rewrite (IH _ (old ++ chunk)).
    + now rewrite concat_cons, append_assoc.
    + cbn. unfold fs_write. now rewrite Path_eqb_refl, Hp.
Qed.

(** What the operations of a whole [save] leave in the state file. *)
Lemma exec_save_ops state_file temp_file chunks fs :
  exec_ops fs (save_ops state_file temp_file chunks) state_file
  = Some (String.concat "" chunks).
Proof.
  unfold save_ops. rewrite !exec_ops_app.
  set (fs1 := exec_ops fs [Mkdir (parent state_file); OpenW temp_file]).
  assert (H1 : fs1 temp_file = Some "").
  { unfold fs1. cbn. unfold fs_write. now rewrite Path_eqb_refl. }
  pose proof (exec_writes temp_file chunks fs1 "" H1) as H2. cbn [append] in H2.
  cbn [exec_ops fold_left apply_op]. fold (exec_ops fs1 (map (Write temp_file) chunks)).
  rewrite H2. unfold fs_write. now rewrite Path_eqb_refl.
Qed.

Lemma fs_do_fail env op w w' e : fs_do env op w = (w', inl e) -> w' = w.
Proof.
  unfold fs_do.
  destruct (fs_fault env (history w) op); [now intros [= <- _]|].
  destruct (missing_source (files w) op); [now intros [= <- _]|discriminate].
Qed.

Lemma spares_OpenW p q : p <> q -> spares q (OpenW p).
Proof.
  intros Hne fs. cbn. unfold fs_write. rewrite Path_eqb_neq; [reflexivity|].
  intros H. now apply Hne.
Qed.

(** Every way [save] can end. *)
Lemma save_cases env settings w w' r :
  save env settings w = (w', r) ->
  let state_file := STATE_FILE settings in
  let chunks := json_chunks env (tasks_state (state w)) (last_sync (state w)) in
  state w' = state w
  /\ match r with
     | inl e =>
         suffix (name state_file) <> ".tmp" ->
         files w' state_file = files w state_file
     | inr _ =>
         exists temp_file,
           with_suffix state_file ".tmp" = Some temp_file
           /\ no_fault env (history w) (save_ops state_file temp_file chunks) = true
           /\ files w' = exec_ops (files w) (save_ops state_file temp_file chunks)
     end.
Proof.
  intros Hsave state_file chunks. unfold save in Hsave. fold state_file in Hsave.
  unfold try_except in Hsave. unfold bind at 1, attempt at 1 in Hsave.
  unfold bind at 1 in Hsave.
  destruct (fs_do env (Mkdir (parent state_file)) w) as [w1 [e|[]]] eqn:E1.
  { apply fs_do_fail in E1. subst w1. run. injection Hsave as <- <-. now split. }
  apply fs_do_ok in E1. destruct E1 as (F1 & _ & H1 & S1 & Fs1). cbn in Fs1.
  unfold bind at 1 in Hsave.
  destruct (with_suffix state_file ".tmp") as [temp_file|] eqn:Ews.
  2:{ run. injection Hsave as <- <-. cbn [state files]. split; [exact S1|].
      intros _. now rewrite Fs1. }
  unfold ret at 1 in Hsave. unfold bind at 1, get_state at 1 in Hsave.
  unfold bind at 1, with_open_w at 1 in Hsave.
  unfold bind at 1 in Hsave.
  destruct (fs_do env (OpenW temp_file) w1) as [w2 [e|[]]] eqn:E2.
  { apply fs_do_fail in E2. subst w2. run. injection Hsave as <- <-.
    cbn [state files]. split; [exact S1|]. intros _. now rewrite Fs1. }
  pose proof E2 as E2'. apply fs_do_ok in E2'.
  destruct E2' as (F2 & _ & H2 & S2 & Fs2).
  rewrite S1 in Hsave. fold chunks in Hsave.
  unfold bind at 1, attempt at 1 in Hsave.
  destruct (write_chunks env temp_file chunks w2) as [w3 r3] eqn:E3.
  unfold bind at 1, attempt at 1 in Hsave.
  destruct (fs_do env (Close temp_file) w3) as [w4 c] eqn:E4.
  pose proof (write_chunks_state _ _ _ _ _ _ E3) as S3.
  pose proof (fs_do_state _ _ _ _ _ E4) as S4.
  assert (Hfail : suffix (name state_file) <> ".tmp" ->
                  files w4 state_file = files w state_file).
  { intros Hsuf.
    assert (Hne : temp_file <> state_file) by now apply with_suffix_tmp_neq.
    rewrite (fs_do_spares env state_file (Close temp_file) _ _ _ (fun fs => eq_refl) E4).
    rewrite (write_chunks_spares env state_file _ _ _ _ _ Hne E3).
    rewrite (fs_do_spares env state_file _ _ _ _ (spares_OpenW _ _ Hne) E2).
    now rewrite Fs1. }
  destruct c as [e|[]].
  { run. injection Hsave as <- <-. cbn [state files]. split; [congruence|exact Hfail]. }
  destruct r3 as [e|[]].
  { run. injection Hsave as <- <-. cbn [state files]. split; [congruence|exact Hfail]. }
  unfold ret at 1 in Hsave. unfold bind at 1 in Hsave.
  destruct (fs_do env (Replace temp_file state_file) w4) as [w5 [e|[]]] eqn:E5.
  { apply fs_do_fail in E5. subst w5. run. injection Hsave as <- <-.
    cbn [state files]. split; [congruence|exact Hfail]. }
  run. injection Hsave as <- <-. cbn [state files].
  apply write_chunks_ok in E3. destruct E3 as (N3 & H3 & _ & Fs3).
  apply fs_do_ok in E4. destruct E4 as (F4 & _ & H4 & _ & Fs4).
  apply fs_do_ok in E5. destruct E5 as (F5 & _ & H5 & S5 & Fs5).
  split; [congruence|].
  exists temp_file. split; [reflexivity|]. split.
  - unfold save_ops. cbn [app no_fault]. rewrite F1, <- H1, F2, <- H2.
    rewrite no_fault_app, N3, <- H3. cbn [andb no_fault].
    now rewrite F4, <- H4, F5.
  - unfold save_ops. rewrite !exec_ops_app. cbn [exec_ops fold_left].
    fold (exec_ops (apply_op (apply_op (files w) (Mkdir (parent state_file))) (OpenW temp_file))
                   (map (Write temp_file) chunks)).
    rewrite Fs5, Fs4, Fs3, Fs2, Fs1. reflexivity.
Qed.

(** [save] is atomic for every state file whose own suffix is not [.tmp]:
    stopping anywhere before the rename is done leaves the state file as
    it was; so does a [save] that raises; a [save] that returns has run
    every operation, none of which failed, and the state file holds the
    serialised state; a failing operation makes [save] raise. *)
Theorem save_atomic (env : Env) (settings : Settings) :
  let state_file := STATE_FILE settings in
  suffix (name state_file) <> ".tmp" ->
  (forall temp_file chunks fs k,
     with_suffix state_file ".tmp" = Some temp_file ->
     k < List.length (save_ops state_file temp_file chunks) ->
     exec_ops fs (firstn k (save_ops state_file temp_file chunks)) state_file
     = fs state_file)
  /\ (forall w w' e,
        save env settings w = (w', inl e) ->
        files w' state_file = files w state_file)
  /\ (forall w w',
        save env settings w = (w', inr tt) ->
        let chunks := json_chunks env (tasks_state (state w)) (last_sync (state w)) in
        exists temp_file,
          with_suffix state_file ".tmp" = Some temp_file
          /\ no_fault env (history w) (save_ops state_file temp_file chunks) = true
          /\ files w' = exec_ops (files w) (save_ops state_file temp_file chunks)
          /\ files w' state_file = Some (String.concat "" chunks))
  /\ (forall w temp_file,
        with_suffix state_file ".tmp" = Some temp_file ->
        no_fault env (history w)
          (save_ops state_file temp_file
             (json_chunks env (tasks_state (state w)) (last_sync (state w))))
        = false ->
        exists w' e, save env settings w = (w', inl e)).
Proof.
  intros state_file Hsuf. repeat split.
  - intros temp_file chunks fs k Hws Hk. apply crash_before_rename; [|exact Hk].
    now apply with_suffix_tmp_neq.
  - intros w w' e Hsave. apply save_cases in Hsave. now apply Hsave.
  - intros w w' Hsave chunks. apply save_cases in Hsave.
    destruct Hsave as (_ & temp_file & Hws & Hnf & Hfs).
    exists temp_file. repeat split; try assumption.
    rewrite Hfs. apply exec_save_ops.
  - intros w temp_file Hws Hnf.
    destruct (save env settings w) as [w' [e|[]]] eqn:Hsave; [eauto|].
    apply save_cases in Hsave. destruct Hsave as (_ & temp_file' & Hws' & Hnf' & _).
    cbv zeta in Hws', Hnf'. unfold state_file in *.
    rewrite Hws in Hws'. injection Hws' as <-. congruence.
Qed.

(** C5 at a state file named [sync_state.tmp].  The temporary file of
    [save] is the state file itself, so opening it empties the earlier
    state: a process stopped after the first two operations, before any
    rename, leaves an empty state file; and when the disk is full [save]
    raises and the earlier state is gone. *)
Theorem save_truncates_tmp_state_file :
  with_suffix tmp_state_file ".tmp" = Some tmp_state_file
  /\ files saved_before tmp_state_file = Some "earlier state"
  /\ exec_ops (files saved_before)
       (firstn 2 (save_ops tmp_state_file tmp_state_file ["{"; "}"]))
       tmp_state_file = Some ""
  /\ snd (save disk_full_env tmp_settings saved_before)
     = inl (PyException "OSError" "No space left on device")
  /\ files (fst (save disk_full_env tmp_settings saved_before)) tmp_state_file
     = Some "".
Proof.
  repeat match goal with |- _ /\ _ => split end; vm_compute; reflexivity.
Qed.

(** ** The duplicate filter *)

Lemma after_nil w : after w [] = w.
Proof. destruct w. unfold after. simpl. now rewrite app_nil_r. Qed.

Lemma after_after w evs1 evs2 : after (after w evs1) evs2 = after w (evs1 ++ evs2)%list.
Proof. unfold after. simpl. now rewrite app_assoc. Qed.


(** One round of the loop on a duplicate. *)
Lemma filter_duplicates_duplicate env existing_items item rest unique w :
  is_duplicate env existing_items item = true ->
  let found := Log INFO ("Duplicate item found: '" ++ Task.content item
                         ++ "'. Deleting...") in
  let outcome :=
    match api_delete_task env (history w ++ [found])%list (Task.id item) with
    | inr _ => Log INFO ("Deleted duplicate item: " ++ Task.content item)
    | inl e => Log ERROR ("Failed to delete duplicate item "
                          ++ Task.content item ++ ": " ++ str e)
    end in
  filter_duplicates env existing_items (item :: rest) unique w
  = filter_duplicates env existing_items rest unique
      (after w [found; Call (delete_task (Task.id item)); outcome]).
Proof.
  intros Hdup found outcome. cbn [filter_duplicates].
  unfold is_duplicate in Hdup. rewrite Hdup. run. fold found.
  unfold outcome, after.
  destruct (api_delete_task env (history w ++ [found])%list (Task.id item));
    cbn [history state files]; rewrite <- !app_assoc; reflexivity.
Qed.

Lemma filter_duplicates_run env existing_items unlabeled_items unique w :
  exists evs,
    filter_duplicates env existing_items unlabeled_items unique w
    = (after w evs,
       inr (unique ++ filter (fun item => negb (is_duplicate env existing_items item))
                             unlabeled_items)%list)
    /\ forall item,
         In item unlabeled_items -> is_duplicate env existing_items item = true ->
         In (Call (delete_task (Task.id item))) evs.
Proof.
  revert unique w.
  induction unlabeled_items as [|item rest IH]; intros unique w.
  - exists []. rewrite after_nil. cbn. rewrite app_nil_r. split; [reflexivity | tauto].
  - destruct (is_duplicate env existing_items item) eqn:Hdup.
    + rewrite filter_duplicates_duplicate by exact Hdup.
      match goal with |- context [after w ?l] => set (block := l) end.
      destruct (IH unique (after w block)) as (evs & Hrun & Hdel).
      exists (block ++ evs)%list. rewrite Hrun, after_after.
      cbn [filter]. rewrite Hdup. cbn [negb]. split; [reflexivity|].
      intros item' [<-|Hin] Hd; apply in_or_app.
      * left. unfold block. cbn. tauto.
      * right. now apply Hdel.
    + cbn [filter_duplicates]. unfold is_duplicate in Hdup. rewrite Hdup.
      destruct (IH (unique ++ [item])%list w) as (evs & Hrun & Hdel).
      exists evs. rewrite Hrun. cbn [filter]. unfold is_duplicate at 2.
      rewrite Hdup. cbn [negb]. rewrite <- app_assoc. split; [reflexivity|].
      intros item' [<-|Hin] Hd; [|now apply Hdel].
      unfold is_duplicate in Hd. congruence.
Qed.

(** ** C3 and C7: the apply phase *)






(** *** Dictionaries built by assignment *)

Lemma keys_dict_set {V} (d : dict V) k v k' :
  In k' (keys (dict_set d k v)) <-> k' = k \/ In k' (keys d).
Proof.
  induction d as [|[k0 v0] d IH]; cbn [dict_set keys map In fst].
  - intuition.
  - destruct (String.eqb_spec k0 k) as [->|Hne]; cbn [keys map In fst].
    + intuition.
    + fold (keys (dict_set d k v)). fold (keys d). rewrite IH. intuition.
Qed.

Lemma wf_dict_set {V} (d : dict V) k v : wf_dict d -> wf_dict (dict_set d k v).
Proof.
  unfold wf_dict. induction d as [|[k0 v0] d IH]; cbn [dict_set keys map fst].
  - intros _. repeat constructor. intros [].
  - intros Hnd. inversion Hnd as [|? ? Hnotin Hnd']; subst.
    destruct (String.eqb_spec k0 k) as [->|Hne]; cbn [keys map fst].
    + now constructor.
    + constructor; [|now apply IH].
      fold (keys (dict_set d k v)). rewrite keys_dict_set. intros [E|Hin].
      * now apply Hne.
      * now apply Hnotin.
Qed.

Lemma values_dict_set {V} (P : V -> Prop) (d : dict V) k v :
  Forall (fun entry => P (snd entry)) d -> P v ->
  Forall (fun entry => P (snd entry)) (dict_set d k v).
Proof.
  intros Hd Hv. induction Hd as [|[k0 v0] d H0 Hd IH]; cbn [dict_set].
  - now repeat constructor.
  - destruct (String.eqb k0 k); constructor; auto.
Qed.

Lemma dict_mem_In {V} (d : dict V) k : dict_mem d k = true <-> In k (keys d).
Proof.
  unfold dict_mem. destruct (dict_get d k) eqn:E.
  - split; [intros _|reflexivity]. apply dict_get_In in E.
    change k with (fst (k, v)). now apply in_map.
  - split; [discriminate|]. intros Hin. apply dict_get_None in E. contradiction.
Qed.

(** *** The Categorizer's output *)

Lemma map_back_fold env items category_to_items acc :
  let out := fold_left (map_back_step env items) category_to_items acc in
  (wf_dict acc -> wf_dict out)
  /\ (Forall (fun entry => exists names, snd entry = matching_tasks env items names) acc ->
      Forall (fun entry => exists names, snd entry = matching_tasks env items names) out)
  /\ (forall k,
        In k (keys out) <->
        In k (keys acc)
        \/ exists category_name item_names,
             In (category_name, item_names) category_to_items
             /\ category_key_of env category_name = k
             /\ matching_tasks env items item_names <> []).
Proof.
  revert acc. induction category_to_items as [|[category_name item_names] rest IH];
    intros acc; cbn [fold_left].
  - repeat split; auto. intros [H|(? & ? & [] & _)]. exact H.
  - destruct (IH (map_back_step env items acc (category_name, item_names)))
      as (Hwf & Hval & Hkeys).
    cbv zeta. unfold map_back_step in *. cbn [fst snd] in *.
    destruct (matching_tasks env items item_names) as [|task tasks] eqn:Em.
    + split; [exact Hwf|]. split; [exact Hval|].
      intros k. rewrite Hkeys. split.
      * intros [H|(cn & names & Hin & Hk & Hm)]; [now left|].
        right. exists cn, names. split; [now right|]. now split.
      * intros [H|(cn & names & [[= <- <-]|Hin] & Hk & Hm)]; [now left| |].
        -- congruence.
        -- right. exists cn, names. now repeat split.
    + split; [intros H; now apply Hwf, wf_dict_set|]. split.
      * intros H. apply Hval. apply (values_dict_set
          (fun v => exists names, v = matching_tasks env items names)); [exact H|].
        exists item_names. now rewrite Em.
      * intros k. rewrite Hkeys, keys_dict_set. split.
        -- intros [[->|H]|(cn & names & Hin & Hk & Hm)].
           ++ right. exists category_name, item_names.
              split; [now left|]. split; [reflexivity|]. now rewrite Em.
           ++ now left.
           ++ right. exists cn, names. split; [now right|]. now split.
        -- intros [H|(cn & names & [[= <- <-]|Hin] & Hk & Hm)].
           ++ left. now right.
           ++ left. now left.
           ++ right. exists cn, names. now repeat split.
Qed.







(** *** Unknown categories *)

Lemma bind_ok {A B} (m : M A) (k : A -> M B) w w' b :
  bind m k w = (w', inr b) ->
  exists w1 a, m w = (w1, inr a) /\ k a w1 = (w', inr b).
Proof.
  unfold bind. destruct (m w) as [w1 [e|a]]; [discriminate|]. eauto.
Qed.


(** The section map gets one key per configured category. *)
Lemma setup_sections_keys env project_id sections categories section_dict w w' out :
  setup_sections env project_id sections categories section_dict w = (w', inr out) ->
  forall k, In k (keys out) <-> In k (keys section_dict) \/ In k (keys categories).
Proof.
  revert section_dict w.
  induction categories as [|[category_key category_config] rest IH];
    intros section_dict w Hrun k.
  - injection Hrun as _ <-. cbn. tauto.
  - cbn [setup_sections] in Hrun. apply bind_ok in Hrun.
    destruct Hrun as (w1 & section & _ & Hrest).
    rewrite (IH _ _ Hrest k), keys_dict_set. cbn [keys map fst In].
    fold (keys rest). intuition.
Qed.


(** A categorisation that returns has mapped the parsed response back. *)
Lemma categorize_items_ok env settings items categories_config w w' categorized_items :
  categorize_items env settings items categories_config w = (w', inr categorized_items) ->
  items = [] /\ categorized_items = []
  \/ exists response_data category_to_items,
       api_chat_completions_create env (history w) (OPENAI_MODEL settings)
         (system_prompt env categories_config) (user_prompt items) = inr response_data
       /\ py_eval env response_data = inr category_to_items
       /\ categorized_items = map_back env items category_to_items.
Proof.
  unfold categorize_items. destruct items as [|item items'].
  - intros [= _ <-]. now left.
  - set (items := item :: items'). intros Hrun. right. revert Hrun. run.
    destruct (api_chat_completions_create env _ _ _ _) as [e|response_data];
      [discriminate|].
    destruct (py_eval env response_data) as [e|category_to_items] eqn:Eeval;
      [discriminate|].
    intros [= _ <-]. eauto.
Qed.



(** ** C1: a failed categorisation *)

(** After a failure of the categorisation [organize_shopping_list] logs,
    escalates if asked to, and returns: nothing is raised to its caller. *)
Lemma report_failure_returns env settings what short e w :
  exists w', report_failure env settings what short e w = (w', inr tt)
             /\ state w' = state w /\ files w' = files w.
Proof.
  unfold report_failure. run.
  destruct (mode_in settings ["log"; "both"]);
    (destruct (mode_in settings ["task"; "both"]); cbn [history state files];
     [ match goal with |- context [create_error_task env settings ?m ?x] =>
         destruct (create_error_task_total env settings m x) as (w' & -> & Hs & Hf)
       end; exists w'; repeat split; assumption
     | eexists; repeat split; reflexivity ]).
Qed.

(** C1 at a cycle that finds one new item while the classification call
    raises, and at one where the response is no structured data.  The
    failure is logged, [organize_shopping_list] returns, and
    [check_and_sync] goes on to [update] and [save]: the cycle ends
    normally, the state in memory and the state file hold the new
    snapshot, and at the next tick the same list counts as unchanged. *)
Theorem categorization_failure_is_committed :
  let state_file := STATE_FILE scenario_settings in
  let committed := [("2", {| content := "Milk"; section_id := None;
                             is_completed := false |})] in
  (let r := check_and_sync outage_env scenario_settings fresh_world in
   snd r = inr tt
   /\ In (Log ERROR "Failed to categorize items using OpenAI: Connection error.")
         (history (fst r))
   /\ tasks_state (state fresh_world) = []
   /\ tasks_state (state (fst r)) = committed
   /\ last_sync (state (fst r)) = Some "2024-05-01T08:00:00"
   /\ files fresh_world state_file = None
   /\ files (fst r) state_file = Some "{}"
   /\ In (Fs (Replace {| parent := ["data"]; name := "sync_state.tmp" |} state_file))
         (history (fst r))
   /\ has_changed (state (fst r)) (tasks_snapshot [milk]) = false)
  /\ (let r := check_and_sync garbled_env scenario_settings fresh_world in
      snd r = inr tt
      /\ In (Log ERROR "Failed to categorize items using OpenAI: invalid syntax")
            (history (fst r))
      /\ tasks_state (state (fst r)) = committed
      /\ files (fst r) state_file = Some "{}").
Proof.
  cbv zeta.
  repeat match goal with |- _ /\ _ => split end;
    vm_compute;
    first [ reflexivity
          | repeat (first [left; reflexivity | right]) ].
Qed.

(* ===================================================================== *)
(** * Further properties *)
(* ===================================================================== *)

(** ** What the organizer leaves alone *)

Lemma keeps_ret {A} (a : A) : keeps_state_files (ret a).
Proof. intros w. now split. Qed.

Lemma keeps_raise {A} (e : exn) : keeps_state_files (@raise A e).
Proof. intros w. now split. Qed.

Lemma keeps_lift {A} (r : result A) : keeps_state_files (lift r).
Proof. intros w. now split. Qed.

Lemma keeps_emit ev : keeps_state_files (emit ev).
Proof. intros w. now split. Qed.

Lemma keeps_log lvl msg : keeps_state_files (log lvl msg).
Proof. apply keeps_emit. Qed.

Lemma keeps_remote {A} c (oracle : list event -> result A) :
  keeps_state_files (remote c oracle).
Proof. intros w. now split. Qed.

Lemma keeps_bind {A B} (m : M A) (k : A -> M B) :
  keeps_state_files m -> (forall a, keeps_state_files (k a)) ->
  keeps_state_files (bind m k).
Proof.
  intros Hm Hk w. unfold bind. specialize (Hm w).
  destruct (m w) as [w1 [e|a]]; cbn [fst] in *; [exact Hm|].
  destruct (Hk a w1) as [Hs Hf]. split; [now rewrite Hs|now rewrite Hf].
Qed.

Lemma keeps_attempt {A} (m : M A) :
  keeps_state_files m -> keeps_state_files (attempt m).
Proof.
  intros Hm w. unfold attempt. specialize (Hm w).
  now destruct (m w) as [w1 r].
Qed.

Lemma keeps_try_except {A} (m : M A) (handler : exn -> M A) :
  keeps_state_files m -> (forall e, keeps_state_files (handler e)) ->
  keeps_state_files (try_except m handler).
Proof.
  intros Hm Hh. unfold try_except. apply keeps_bind; [now apply keeps_attempt|].
  intros [e|a]; [apply Hh | apply keeps_ret].
Qed.

Lemma keeps_when b (m : M unit) :
  keeps_state_files m -> keeps_state_files (when b m).
Proof. intros Hm. destruct b; [exact Hm | apply keeps_ret]. Qed.

Lemma keeps_pure {A} (f : World -> result A) :
  keeps_state_files (fun w => (w, f w)).
Proof. intros w. now split. Qed.

(** Takes a computation apart, down to the calls that keep the state. *)
Ltac keeps :=
  repeat first
    [ assumption
    | apply keeps_ret | apply keeps_raise | apply keeps_lift
    | apply keeps_log | apply keeps_emit | apply keeps_remote
    | apply keeps_pure
    | apply keeps_when
    | apply keeps_attempt
    | apply keeps_bind; [|intros ?]
    | apply keeps_try_except; [|intros ?]
    | match goal with
      | |- keeps_state_files (match ?x with _ => _ end) => destruct x
      | |- keeps_state_files (if ?b then _ else _) => destruct b
      | |- keeps_state_files (let _ := _ in _) => cbv zeta
      end ].

Lemma keeps_create_error_task env settings error_message :
  keeps_state_files (create_error_task env settings error_message).
Proof.
  unfold create_error_task, todoist_get_tasks, todoist_add_task, datetime_now. keeps.
Qed.

Lemma keeps_setup_sections env project_id sections categories section_dict :
  keeps_state_files (setup_sections env project_id sections categories section_dict).
Proof.
  revert section_dict. induction categories as [|[category_key category_config] rest IH];
    intros section_dict; cbn [setup_sections]; keeps. apply IH.
Qed.

Lemma keeps_setup_todoist_resources env settings categories_config :
  keeps_state_files (setup_todoist_resources env settings categories_config).
Proof.
  unfold setup_todoist_resources. keeps. apply keeps_setup_sections.
Qed.

Lemma keeps_categorize_items env settings items categories_config :
  keeps_state_files (categorize_items env settings items categories_config).
Proof. unfold categorize_items. keeps. Qed.

Lemma keeps_filter_duplicates env existing_items unlabeled_items unique :
  keeps_state_files (filter_duplicates env existing_items unlabeled_items unique).
Proof.
  revert unique. induction unlabeled_items as [|item rest IH]; intros unique;
    cbn [filter_duplicates]; unfold todoist_delete_task; keeps; apply IH.
Qed.

Lemma keeps_move_items env project_id section_id category_name items :
  keeps_state_files (move_items env project_id section_id category_name items).
Proof.
  induction items as [|item rest IH]; cbn [move_items];
    unfold todoist_update_task, todoist_add_task, todoist_delete_task; keeps.
Qed.

Lemma keeps_apply_moves env project_id section_dict categorized_items :
  keeps_state_files (apply_moves env project_id section_dict categorized_items).
Proof.
  induction categorized_items as [|[category_key items] rest IH]; cbn [apply_moves];
    keeps. apply keeps_move_items.
Qed.

Lemma keeps_report_failure env settings what short e :
  keeps_state_files (report_failure env settings what short e).
Proof. unfold report_failure. keeps. apply keeps_create_error_task. Qed.

Lemma keeps_organize_shopping_list env settings :
  keeps_state_files (organize_shopping_list env settings).
Proof.
  unfold organize_shopping_list, get_unlabeled_items, get_existing_items,
    todoist_get_tasks.
  keeps;
    first [ apply keeps_report_failure | apply keeps_setup_sections
          | apply keeps_filter_duplicates | apply keeps_categorize_items
          | apply keeps_apply_moves | apply keeps_create_error_task ].
Qed.

Lemma keeps_before_sleep n e : keeps_state_files (before_sleep n e).
Proof. unfold before_sleep. keeps. Qed.

Lemma keeps_retry_loop {A} fuel n (fn : M A) :
  keeps_state_files fn -> keeps_state_files (retry_loop fuel n fn).
Proof.
  intros Hfn. revert n. induction fuel as [|fuel IH]; intros n; cbn [retry_loop];
    keeps; first [apply keeps_before_sleep | apply IH].
Qed.

Lemma keeps_get_shopping_project_id env settings :
  keeps_state_files (_get_shopping_project_id env settings).
Proof.
  apply keeps_retry_loop. unfold _get_shopping_project_id_body. keeps.
Qed.

Lemma keeps_get_current_tasks_state env project_id :
  keeps_state_files (_get_current_tasks_state env project_id).
Proof.
  apply keeps_retry_loop. unfold _get_current_tasks_state_body. keeps.
Qed.

(** ** The commit of a cycle *)

(** A handler that logs twice and raises again changes neither the
    outcome nor the state nor the files. *)
Lemma reraise_same {A} (m : M A) lvl1 (f1 : exn -> string) lvl2 (f2 : exn -> string) w :
  let run := try_except m (fun e => log lvl1 (f1 e) ;; log lvl2 (f2 e) ;; raise e) w in
  state (fst run) = state (fst (m w))
  /\ files (fst run) = files (fst (m w))
  /\ snd run = snd (m w).
Proof.
  unfold try_except. run. destruct (m w) as [w1 [e|a]]; cbn; repeat split.
Qed.

Lemma bind_inl {A B} (m : M A) (k : A -> M B) w w1 e :
  m w = (w1, inl e) -> bind m k w = (w1, inl e).
Proof. unfold bind. now intros ->. Qed.

Lemma bind_inr {A B} (m : M A) (k : A -> M B) w w1 a :
  m w = (w1, inr a) -> bind m k w = k a w1.
Proof. unfold bind. now intros ->. Qed.

(** The block [organize; update; save]: either the organizer raises and
    nothing has changed, or the new snapshot is in memory, and then it is on
    disk exactly when the block returns. *)
Lemma commit_block env settings current_state msg w :
  let run := (organize_shopping_list env settings ;;
              state_update env current_state ;;
              save env settings ;;
              log INFO msg) w in
  let state_file := STATE_FILE settings in
  (state (fst run) = state w /\ files (fst run) = files w
   /\ exists e, snd run = inl e)
  \/ exists stamp,
       state (fst run) = update (state w) current_state stamp
       /\ match snd run with
          | inr _ =>
              files (fst run) state_file
              = Some (String.concat "" (json_chunks env current_state (Some stamp)))
          | inl _ =>
              suffix (name state_file) <> ".tmp" ->
              files (fst run) state_file = files w state_file
          end.
Proof.
  cbv zeta.
  pose proof (keeps_organize_shopping_list env settings w) as [Ks Kf].
  destruct (organize_shopping_list env settings w) as [w1 [e|[]]] eqn:Eorg;
    cbn [fst] in Ks, Kf.
  { left. rewrite (bind_inl _ _ _ _ _ Eorg). cbn [fst snd].
    split; [exact Ks|]. split; [exact Kf|]. now exists e. }
  right. rewrite (bind_inr _ _ _ _ _ Eorg).
  set (stamp := utcnow env (history w1)).
  set (w2 := {| history := history w1;
                state := update (state w1) current_state stamp;
                files := files w1 |}).
  assert (Eupd : state_update env current_state w1 = (w2, inr tt)) by reflexivity.
  rewrite (bind_inr _ _ _ _ _ Eupd).
  exists stamp.
  destruct (save env settings w2) as [w3 [e|[]]] eqn:Hsave.
  - rewrite (bind_inl _ _ _ _ _ Hsave). cbn [fst snd].
    apply save_cases in Hsave. cbv zeta in Hsave. destruct Hsave as [Hs Hf].
    split; [rewrite Hs; cbn [state w2]; now rewrite Ks|].
    intros Hsuf. rewrite (Hf Hsuf). cbn [files w2]. now rewrite Kf.
  - rewrite (bind_inr _ _ _ _ _ Hsave). unfold log, emit. cbn [fst snd state files].
    apply save_cases in Hsave. cbv zeta in Hsave.
    destruct Hsave as (Hs & temp_file & _ & _ & Hfiles).
    split; [rewrite Hs; cbn [state w2]; now rewrite Ks|].
    rewrite Hfiles. cbn [state w2 update tasks_state last_sync]. apply exec_save_ops.
Qed.

Lemma commit_consistent_same env settings w w' r :
  state w' = state w -> files w' = files w ->
  commit_consistent env settings w w' r.
Proof. intros Hs Hf. now left. Qed.

Lemma commit_consistent_from env settings w0 w w' r :
  state w0 = state w -> files w0 = files w ->
  commit_consistent env settings w0 w' r ->
  commit_consistent env settings w w' r.
Proof.
  unfold commit_consistent. intros Hs Hf. now rewrite Hs, Hf.
Qed.

(** The body of [check_and_sync], inside its outer [try]. *)
Lemma check_and_sync_body_commit env settings w :
  let body :=
    (log INFO "Starting Todoist sync check..." ;;
     project_id <- _get_shopping_project_id env settings ;;
     if negb (truthy project_id) then
       log WARNING ("Shopping list project '"
                    ++ TODOIST_SHOPPING_PROJECT_NAME settings ++ "' not found")
     else
       current_state <- _get_current_tasks_state env (str_of_option project_id) ;;
       self <- get_state ;;
       (if has_changed self current_state then
          log INFO "Changes detected in shopping list, organizing items..." ;;
          try_except
            (organize_shopping_list env settings ;;
             state_update env current_state ;;
             save env settings ;;
             log INFO "Shopping list organization completed successfully")
            (fun e =>
               log ERROR ("Failed to organize shopping list: " ++ str e) ;;
               log ERROR (str e) ;;
               raise e)
        else log INFO "No changes detected in shopping list") ;;
       log INFO "Todoist sync check completed") in
  commit_consistent env settings w (fst (body w)) (snd (body w)).
Proof.
  cbv zeta.
  set (w0 := after w [Log INFO "Starting Todoist sync check..."]).
  assert (E0 : log INFO "Starting Todoist sync check..." w = (w0, inr tt)) by reflexivity.
  rewrite (bind_inr _ _ _ _ _ E0).
  apply (commit_consistent_from env settings w0); [reflexivity..|].
  pose proof (keeps_get_shopping_project_id env settings w0) as [K1s K1f].
  destruct (_get_shopping_project_id env settings w0) as [w1 [e|project_id]] eqn:E1;
    cbn [fst] in K1s, K1f.
  { rewrite (bind_inl _ _ _ _ _ E1). now apply commit_consistent_same. }
  rewrite (bind_inr _ _ _ _ _ E1).
  apply (commit_consistent_from env settings w1); [assumption..|].
  destruct (truthy project_id); cbn [negb].
  2:{ now apply commit_consistent_same. }
  set (pid := str_of_option project_id).
  pose proof (keeps_get_current_tasks_state env pid w1) as [K2s K2f].
  destruct (_get_current_tasks_state env pid w1) as [w2 [e|current_state]] eqn:E2;
    cbn [fst] in K2s, K2f.
  { rewrite (bind_inl _ _ _ _ _ E2). now apply commit_consistent_same. }
  rewrite (bind_inr _ _ _ _ _ E2).
  apply (commit_consistent_from env settings w2); [assumption..|].
  assert (Eg : get_state w2 = (w2, inr (state w2))) by reflexivity.
  rewrite (bind_inr _ _ _ _ _ Eg).
  destruct (has_changed (state w2) current_state) eqn:Hch.
  2:{ now apply commit_consistent_same. }
  set (w3 := after w2 [Log INFO "Changes detected in shopping list, organizing items..."]).
  set (block := (organize_shopping_list env settings ;;
                 state_update env current_state ;;
                 save env settings ;;
                 log INFO "Shopping list organization completed successfully")).
  set (guarded := try_except block _).
  pose proof (reraise_same block ERROR
                (fun e => "Failed to organize shopping list: " ++ str e)
                ERROR str w3) as (Rs & Rf & Rr).
  cbv zeta in Rs, Rf, Rr. fold guarded in Rs, Rf, Rr.
  pose proof (commit_block env settings current_state
                "Shopping list organization completed successfully" w3) as Hblock.
  cbv zeta in Hblock. fold block in Hblock.
  assert (Ecc : commit_consistent env settings w2 (fst (guarded w3)) (snd (guarded w3))).
  { rewrite Rr. unfold commit_consistent. rewrite Rs, Rf.
    destruct Hblock as [(Hs & Hf & _)|(stamp & Hs & Hf)].
    - left. now split.
    - right. exists current_state, stamp. repeat split; assumption. }
  assert (El : (log INFO "Changes detected in shopping list, organizing items..." ;;
                guarded) w2 = guarded w3) by reflexivity.
  destruct (guarded w3) as [w4 [e|[]]] eqn:Eg3; cbn [fst snd] in Ecc.
  - rewrite (bind_inl _ _ _ _ _ El). exact Ecc.
  - rewrite (bind_inr _ _ _ _ _ El). exact Ecc.
Qed.

(** Wherever a cycle ends, memory and disk agree with one another: either
    neither the sync state nor any file has changed; or the cycle has found
    a snapshot that differs from the stored one and put it in memory, and
    then, if the cycle returns, the state file holds that snapshot, and if
    it raises (a [save] that failed), the state file is as it was, unless
    its own suffix is [.tmp]. *)
Theorem check_and_sync_commit (env : Env) (settings : Settings) (w : World) :
  let run := check_and_sync env settings w in
  let state_file := STATE_FILE settings in
  (state (fst run) = state w /\ files (fst run) = files w)
  \/ exists current_state stamp,
       has_changed (state w) current_state = true
       /\ state (fst run) = update (state w) current_state stamp
       /\ match snd run with
          | inr _ =>
              files (fst run) state_file
              = Some (String.concat "" (json_chunks env current_state (Some stamp)))
          | inl _ =>
              suffix (name state_file) <> ".tmp" ->
              files (fst run) state_file = files w state_file
          end.
Proof.
  cbv zeta.
  change (commit_consistent env settings w (fst (check_and_sync env settings w))
            (snd (check_and_sync env settings w))).
  unfold check_and_sync.
  match goal with |- context [try_except ?b _] => set (body := b) end.
  pose proof (reraise_same body ERROR (fun e => "Todoist sync check failed: " ++ str e)
                ERROR str w) as (Rs & Rf & Rr).
  cbv zeta in Rs, Rf, Rr.
  pose proof (check_and_sync_body_commit env settings w) as Hbody.
  cbv zeta in Hbody. fold body in Hbody.
  unfold commit_consistent in *. rewrite Rs, Rf, Rr. exact Hbody.
Qed.

(** ** Saving the state *)

Lemma save_atomic_witness :
  suffix (name (STATE_FILE scenario_settings)) <> ".tmp"
  /\ forall w w' e,
       save outage_env scenario_settings w = (w', inl e) ->
       files w' (STATE_FILE scenario_settings)
       = files w (STATE_FILE scenario_settings).
Proof.
  assert (H : suffix (name (STATE_FILE scenario_settings)) <> ".tmp")
    by (vm_compute; discriminate).
  split; [exact H|].
  exact (proj1 (proj2 (save_atomic outage_env scenario_settings H))).
Defined.

(** ** Loading the state *)

(** The cases of [load]. *)
Lemma load_run (reader : Reader) (settings : Settings) (w : World) :
  let state_file := STATE_FILE settings in
  let run := load settings reader w in
  snd run = inr tt
  /\ files (fst run) = files w
  /\ match files w state_file with
     | None => fst run = w
     | Some text =>
         match read_fault reader (history w) state_file,
               json_load reader text with
         | Some _, _ | None, inl _ => state (fst run) = SyncState_init
         | None, inr data =>
             let tasks := match loaded_tasks data with
                          | Some tasks => tasks
                          | None => []
                          end in
             if truthy (loaded_last_sync data) then
               match fromisoformat reader (str_of_option (loaded_last_sync data)) with
               | inl _ => state (fst run) = SyncState_init
               | inr stamp =>
                   state (fst run) = {| tasks_state := tasks; last_sync := Some stamp |}
               end
             else
               state (fst run)
               = {| tasks_state := tasks; last_sync := last_sync (state w) |}
         end
     end.
Proof.
  cbv zeta. unfold load, file_exists, read_file, lift. run.
  destruct (files w (STATE_FILE settings)) as [text|] eqn:Efile; cbn [when].
  2:{ repeat split. }
  rewrite Efile.
  destruct (read_fault reader (history w) (STATE_FILE settings)) as [e|];
    [repeat split|].
  destruct (json_load reader text) as [e|data]; [repeat split|].
  cbn [fst snd history state files].
  destruct (truthy (loaded_last_sync data)); [|repeat split].
  destruct (fromisoformat reader _) as [e|stamp]; repeat split.
Qed.

(** A process that starts on the files a successful [save] has left finds
    the saved state again, when the file can be read, [json.load] undoes
    [json.dump] on that state and [fromisoformat] undoes [isoformat] on its
    time stamp. *)
Theorem save_then_load (env : Env) (settings : Settings) (reader : Reader)
    (w restarted : World) :
  let saved := state w in
  snd (save env settings w) = inr tt ->
  files restarted = files (fst (save env settings w)) ->
  read_fault reader (history restarted) (STATE_FILE settings) = None ->
  json_load reader
    (String.concat "" (json_chunks env (tasks_state saved) (last_sync saved)))
  = inr {| loaded_tasks := Some (tasks_state saved);
           loaded_last_sync := last_sync saved |} ->
  (forall stamp, last_sync saved = Some stamp ->
                 stamp <> "" /\ fromisoformat reader stamp = inr stamp) ->
  snd (ShoppingListSync_init settings reader restarted) = inr tt
  /\ state (fst (ShoppingListSync_init settings reader restarted)) = saved.
Proof.
  cbv zeta. intros Hsave Hfiles Hread Hjson Hstamp.
  destruct (save env settings w) as [w1 r] eqn:Esave. cbn [fst snd] in *. subst r.
  apply save_cases in Esave. cbv zeta in Esave.
  destruct Esave as (_ & temp_file & _ & _ & Hfs).
  assert (Hfile : files restarted (STATE_FILE settings)
                  = Some (String.concat ""
                            (json_chunks env (tasks_state (state w)) (last_sync (state w))))).
  { rewrite Hfiles, Hfs. apply exec_save_ops. }
  unfold ShoppingListSync_init.
  set (w0 := {| history := history restarted; state := SyncState_init;
                files := files restarted |}).
  assert (E0 : put_state SyncState_init restarted = (w0, inr tt)) by reflexivity.
  rewrite (bind_inr _ _ _ _ _ E0).
  pose proof (load_run reader settings w0) as (Hret & _ & Hcase).
  cbv zeta in Hret, Hcase. split; [exact Hret|].
  cbn [files history w0] in Hcase. rewrite Hfile, Hread, Hjson in Hcase.
  cbn [loaded_tasks loaded_last_sync] in Hcase.
  destruct (state w) as [tasks [stamp|]] eqn:Estate; cbn [tasks_state last_sync] in *.
  - destruct (Hstamp stamp eq_refl) as [Hne Hiso].
    cbn [truthy str_of_option] in Hcase.
    destruct (String.eqb_spec stamp "") as [->|_]; [now elim Hne|].
    cbn [negb] in Hcase. rewrite Hiso in Hcase. exact Hcase.
  - cbn [truthy] in Hcase. exact Hcase.
Qed.

Lemma save_then_load_witness :
  snd (save outage_env scenario_settings committed_world) = inr tt
  /\ state (fst (ShoppingListSync_init scenario_settings echo_reader
                   (fst (save outage_env scenario_settings committed_world))))
     = state committed_world.
Proof.
  assert (H1 : snd (save outage_env scenario_settings committed_world) = inr tt)
    by (vm_compute; reflexivity).
  split; [exact H1|].
  refine (proj2 (save_then_load outage_env scenario_settings echo_reader
                   committed_world
                   (fst (save outage_env scenario_settings committed_world))
                   H1 eq_refl eq_refl eq_refl _)).
  intros stamp Hs. injection Hs as <-. split; [discriminate|reflexivity].
Defined.

(** ** The snapshot of the remote list *)

Lemma tasks_snapshot_fold tasks acc :
  let out := fold_left (fun d task => dict_set d (fst (snapshot_entry task))
                                               (snd (snapshot_entry task)))
                       tasks acc in
  (wf_dict acc -> wf_dict out)
  /\ (forall k, In k (keys out) <-> In k (keys acc) \/ In k (map Task.id tasks)).
Proof.
  revert acc. induction tasks as [|task tasks IH]; intros acc; cbn [fold_left].
  - cbn. split; [auto | tauto].
  - destruct (IH (dict_set acc (fst (snapshot_entry task)) (snd (snapshot_entry task))))
      as [Hwf Hkeys].
    cbv zeta. split.
    + intros H. now apply Hwf, wf_dict_set.
    + intros k. rewrite Hkeys, keys_dict_set. cbn [map In snapshot_entry fst].
      intuition.
Qed.

Lemma dict_set_fresh {V} (d : dict V) k v :
  ~ In k (keys d) -> dict_set d k v = (d ++ [(k, v)])%list.
Proof.
  induction d as [|[k0 v0] d IH]; cbn [dict_set keys map fst In app]; [reflexivity|].
  intros Hfresh. destruct (String.eqb_spec k0 k) as [->|_]; [tauto|].
  rewrite IH; [reflexivity|]. intros Hin. apply Hfresh. now right.
Qed.

(** With distinct ids, the snapshot lists the tasks in the order fetched. *)
Lemma tasks_snapshot_distinct tasks acc :
  NoDup (keys acc ++ map Task.id tasks)%list ->
  fold_left (fun d task => dict_set d (fst (snapshot_entry task))
                                      (snd (snapshot_entry task)))
            tasks acc
  = (acc ++ map snapshot_entry tasks)%list.
Proof.
  revert acc. induction tasks as [|task tasks IH]; intros acc Hnd; cbn [fold_left map].
  - now rewrite app_nil_r.
  - assert (Hfresh : ~ In (Task.id task) (keys acc)).
    { intros Hin. apply NoDup_remove_2 in Hnd. apply Hnd, in_or_app. now left. }
    rewrite dict_set_fresh by exact Hfresh.
    rewrite IH.
    + rewrite <- app_assoc. cbn. now destruct task.
    + unfold keys. rewrite map_app. cbn [map fst snapshot_entry].
      rewrite <- app_assoc. exact Hnd.
Qed.

Lemma tasks_snapshot_wf (tasks : list Task.t) : wf_dict (tasks_snapshot tasks).
Proof.
  destruct (tasks_snapshot_fold tasks []) as [Hwf _]. cbv zeta in Hwf.
  apply Hwf. constructor.
Qed.

(** The snapshot [check_and_sync] compares is a dictionary whose keys are
    the ids of the fetched tasks, whatever the remote list sends, twice the
    same id included. *)
Theorem tasks_snapshot_keys (tasks : list Task.t) :
  wf_dict (tasks_snapshot tasks)
  /\ forall task_id,
       dict_mem (tasks_snapshot tasks) task_id = true <->
       In task_id (map Task.id tasks).
Proof.
  destruct (tasks_snapshot_fold tasks []) as [Hwf Hkeys]. cbv zeta in Hwf, Hkeys.
  split.
  - apply Hwf. constructor.
  - intros task_id. rewrite dict_mem_In. unfold tasks_snapshot.
    change (In task_id (keys (fold_left
              (fun d task => dict_set d (fst (snapshot_entry task))
                                        (snd (snapshot_entry task))) tasks []))
            <-> In task_id (map Task.id tasks)).
    rewrite Hkeys. cbn. tauto.
Qed.

(** Once a snapshot is committed, the same list fetched again counts as
    unchanged: a second cycle without a change on the remote side does not
    start the organizer. *)
Theorem unchanged_after_update (self : SyncState) (tasks : list Task.t)
    (stamp : datetime) :
  has_changed (update self (tasks_snapshot tasks) stamp) (tasks_snapshot tasks) = false.
Proof.
  pose proof (tasks_snapshot_wf tasks) as Hwf.
  apply has_changed_false_iff; [exact Hwf | exact Hwf | reflexivity].
Qed.

(** The order in which the remote list sends its tasks does not matter:
    the same tasks, with distinct ids, in another order count as
    unchanged. *)
Theorem reordered_list_unchanged (stored_sync : option datetime)
    (tasks fetched : list Task.t) :
  NoDup (map Task.id tasks) ->
  Permutation tasks fetched ->
  has_changed {| tasks_state := tasks_snapshot tasks; last_sync := stored_sync |}
              (tasks_snapshot fetched) = false.
Proof.
  intros Hnd Hperm.
  pose proof (tasks_snapshot_wf tasks) as Hwf.
  pose proof (tasks_snapshot_wf fetched) as Hwf'.
  apply has_changed_false_iff; [exact Hwf' | exact Hwf |].
  intros task_id. cbn [tasks_state]. apply dict_get_perm; [exact Hwf'|].
  assert (Hnd' : NoDup (map Task.id fetched)).
  { eapply Permutation_NoDup; [apply Permutation_map, Hperm | exact Hnd]. }
  change (tasks_snapshot fetched)
    with (fold_left (fun d task => dict_set d (fst (snapshot_entry task))
                                              (snd (snapshot_entry task))) fetched []).
  change (tasks_snapshot tasks)
    with (fold_left (fun d task => dict_set d (fst (snapshot_entry task))
                                              (snd (snapshot_entry task))) tasks []).
  rewrite !tasks_snapshot_distinct by assumption. cbn [app].
  apply Permutation_map. now apply Permutation_sym.
Qed.

Lemma reordered_list_unchanged_witness :
  NoDup (map Task.id [milk; apple_juice])
  /\ Permutation [milk; apple_juice] [apple_juice; milk]
  /\ has_changed {| tasks_state := tasks_snapshot [milk; apple_juice];
                    last_sync := None |}
                 (tasks_snapshot [apple_juice; milk]) = false.
Proof.
  assert (H1 : NoDup (map Task.id [milk; apple_juice])).
  { cbn. repeat constructor; cbn; intuition discriminate. }
  assert (H2 : Permutation [milk; apple_juice] [apple_juice; milk])
    by apply perm_swap.
  split; [exact H1|]. split; [exact H2|].
  exact (reordered_list_unchanged None _ _ H1 H2).
Defined.

(** ** Category names and the matching of items *)

(** One character through the display name and back. *)
Lemma key_char_round_trip (c : ascii) (previous_is_cased : bool) :
  is_upper c = false -> c <> " "%char ->
  let shown := if Ascii.eqb c "_" then " "%char else c in
  let cased := is_upper shown || is_lower shown in
  let titled := if cased
                then (if previous_is_cased then to_lower shown else to_upper shown)
                else shown in
  (if Ascii.eqb (to_lower titled) " " then "_"%char else to_lower titled) = c.
Proof.
  destruct c as [[] [] [] [] [] [] [] []]; destruct previous_is_cased;
    cbv; intros Hup Hsp; try reflexivity; try discriminate Hup;
    exfalso; apply Hsp; reflexivity.
Qed.

Lemma key_round_trip_from (key : string) (previous_is_cased : bool) :
  plain_key key ->
  replace " " "_" (ascii_lower (title_from previous_is_cased (replace "_" " " key)))
  = key.
Proof.
  unfold plain_key. revert previous_is_cased.
  induction key as [|c key IH]; intros previous_is_cased Hplain; [reflexivity|].
  cbn [list_ascii_of_string] in Hplain.
  inversion Hplain as [|? ? [Hup Hsp] Hrest]; subst.
  cbn [replace title_from ascii_lower]. f_equal.
  - exact (key_char_round_trip c previous_is_cased Hup Hsp).
  - apply IH. exact Hrest.
Qed.

(** ASCII text stays ASCII under the replacement of a character by an
    ASCII one and under the ASCII title. *)
Lemma is_ascii_cons c s :
  is_ascii (String c s) = (nat_of_ascii c <? 128)%nat && is_ascii s.
Proof. reflexivity. Qed.

Lemma is_ascii_replace (a b : ascii) (s : string) :
  (nat_of_ascii b <? 128)%nat = true -> is_ascii s = true ->
  is_ascii (replace a b s) = true.
Proof.
  intros Hb. induction s as [|c s IH]; [reflexivity|].
  cbn [replace]. rewrite !is_ascii_cons, !andb_true_iff. intros [Hc Hs].
  split; [|now apply IH]. now destruct (Ascii.eqb c a).
Qed.

Lemma is_ascii_title_from (previous_is_cased : bool) (s : string) :
  is_ascii s = true -> is_ascii (title_from previous_is_cased s) = true.
Proof.
  revert previous_is_cased. induction s as [|c s IH]; intros previous_is_cased;
    [reflexivity|].
  cbn [title_from]. rewrite !is_ascii_cons, !andb_true_iff. intros [Hc Hs].
  split; [|now apply IH]. clear IH Hs s. revert Hc.
  destruct c as [[] [] [] [] [] [] [] []]; destruct previous_is_cased;
    cbv; congruence.
Qed.

(** An ASCII category key without upper-case letters and spaces is found
    again from its display name, whatever the interpreter's [title] and
    [lower] do outside ASCII: this is what lets a category of the response
    meet its section. *)
Theorem category_key_round_trip (env : Env) (category_key : string) :
  plain_key category_key -> is_ascii category_key = true ->
  category_key_of env (category_display_name env category_key) = category_key.
Proof.
  intros Hplain Hascii. unfold category_key_of, category_display_name, title, lower.
  assert (Hshown : is_ascii (replace "_" " " category_key) = true)
    by (now apply is_ascii_replace).
  rewrite (title_ascii (unicode env) _ Hshown). unfold ascii_title.
  rewrite (lower_ascii (unicode env)) by (now apply is_ascii_title_from).
  now apply key_round_trip_from.
Qed.

Lemma category_key_round_trip_witness :
  plain_key "meat_seafood" /\ is_ascii "meat_seafood" = true
  /\ category_key_of widget_env (category_display_name widget_env "meat_seafood")
     = "meat_seafood".
Proof.
  assert (H : plain_key "meat_seafood").
  { unfold plain_key. cbn [list_ascii_of_string].
    repeat constructor; try reflexivity; discriminate. }
  split; [exact H|]. split; [reflexivity|].
  exact (category_key_round_trip widget_env "meat_seafood" H eq_refl).
Defined.

(** Text without [A]..[Z] has neither an upper-case letter nor a space
    once its spaces are underscores. *)
Lemma plain_key_of_no_upper (s : string) :
  no_upper s = true -> plain_key (replace " " "_" s).
Proof.
  unfold plain_key, no_upper.
  induction s as [|c s IH]; cbn [replace list_ascii_of_string forallb];
    [constructor|].
  rewrite andb_true_iff, negb_true_iff. intros [Hc Hs].
  constructor; [|now apply IH].
  destruct (Ascii.eqb_spec c " ") as [->|Hne]; split;
    [reflexivity | discriminate | exact Hc | exact Hne].
Qed.

(** The canonical key of a response category never has an upper-case
    letter or a space: a configured key that has one is never met by the
    response, and its section stays empty. *)
Theorem category_key_of_plain (env : Env) (category_name : string) :
  plain_key (category_key_of env category_name).
Proof.
  unfold category_key_of, lower.
  apply plain_key_of_no_upper, (lower_no_upper (unicode env)).
Qed.

Lemma prefix_iff (needle hay : string) :
  String.prefix needle hay = true <-> exists post, hay = needle ++ post.
Proof.
  revert hay. induction needle as [|c needle IH]; intros hay; cbn [append].
  - split; [intros _; now exists hay | intros _; now destruct hay].
  - destruct hay as [|d hay]; cbn [String.prefix];
      [split; [discriminate | intros [post H]; discriminate]|].
    destruct (ascii_dec c d) as [->|Hne].
    + rewrite IH. split; intros [post H]; exists post; congruence.
    + split; [discriminate|]. intros [post H]. injection H as H _. congruence.
Qed.

(** [needle in hay] holds exactly when [needle] is a part of [hay]. *)
Lemma contains_iff (needle hay : string) :
  contains needle hay = true <-> exists pre post, hay = pre ++ needle ++ post.
Proof.
  induction hay as [|d hay IH]; cbn [contains]; rewrite orb_true_iff, prefix_iff.
  - split.
    + intros [[post H]|H]; [|discriminate]. exists "", post. exact H.
    + intros (pre & post & H). left. destruct pre; [now exists post|discriminate].
  - rewrite IH. split.
    + intros [[post H]|(pre & post & H)].
      * exists "", post. exact H.
      * exists (String d pre), post. cbn. now rewrite H.
    + intros (pre & post & H). destruct pre as [|c pre].
      * left. now exists post.
      * right. injection H as _ H. now exists pre, post.
Qed.

(** How the response is mapped back: a task goes to a category exactly
    when, for one of the names listed there, [name.lower()] is a part of
    [content.lower()], with the interpreter's [lower].  So a name that is
    a part of several contents claims them all, and an empty name claims
    every task. *)
Theorem matching_by_substring (env : Env) (items : list Task.t)
    (item_names : list string) :
  (forall task,
     In task (matching_tasks env items item_names) <->
     In task items
     /\ exists item pre post,
          In item item_names
          /\ lower env (Task.content task) = pre ++ lower env item ++ post)
  /\ (In "" item_names -> matching_tasks env items item_names = items).
Proof.
  split.
  - intros task. unfold matching_tasks. rewrite filter_In, existsb_exists.
    split; intros [Hin Hex]; (split; [exact Hin|]).
    + destruct Hex as (item & Hitem & Hc). apply contains_iff in Hc.
      destruct Hc as (pre & post & Hc). now exists item, pre, post.
    + destruct Hex as (item & pre & post & Hitem & Hc).
      exists item. split; [exact Hitem|]. apply contains_iff. now exists pre, post.
  - intros Hempty. unfold matching_tasks.
    induction items as [|task items IH]; cbn [filter]; [reflexivity|].
    replace (existsb _ item_names) with true; [now rewrite IH|].
    symmetry. apply existsb_exists. exists "". split; [exact Hempty|].
    apply contains_iff. exists "", (lower env (Task.content task)).
    unfold lower at 2. now rewrite (lower_ascii (unicode env) "" eq_refl).
Qed.

(** ** The calls of the organizer *)

(** Closes one path through a round of the inner loop: the world after
    the round is the one with the events listed. *)
Ltac same_world :=
  unfold after; cbn [history state files];
  repeat match goal with x := _ |- _ => subst x end;
  rewrite <- ?app_assoc; reflexivity.

(** The fallback of a move.  An item is moved by one [update_task].  Only
    when that call fails is a copy with the same content created in the
    destination section, and only when the copy exists is the original
    deleted; whatever the calls answer, the loop goes on with the next
    item. *)
Theorem move_fallback (env : Env) (project_id section_id category_name : string)
    (item : Task.t) (rest : list Task.t) (w : World) :
  let moved := update_task (Task.id item) section_id in
  let copied := add_task (Task.content item) project_id (Some section_id) None None in
  let removed := delete_task (Task.id item) in
  exists block,
    move_items env project_id section_id category_name (item :: rest) w
    = move_items env project_id section_id category_name rest (after w block)
    /\ match api_update_task env (history w) (Task.id item) section_id with
       | inr _ => calls_of block = [moved]
       | inl e =>
           let tried :=
             (history w
              ++ [Call moved;
                  Log ERROR ("Failed to move item " ++ Task.content item
                             ++ " to section " ++ section_id ++ ": " ++ str e);
                  Log INFO ("Attempting to recreate task " ++ Task.content item
                            ++ " in new section...")])%list in
           match api_add_task env tried (Task.content item) project_id
                   (Some section_id) None None with
           | inl _ => calls_of block = [moved; copied]
           | inr _ => calls_of block = [moved; copied; removed]
           end
       end.
Proof.
  cbv zeta.
  destruct (api_update_task env (history w) (Task.id item) section_id) as [e|b] eqn:Eu.
  2:{ exists [Call (update_task (Task.id item) section_id);
              Log INFO ("Moved item to " ++ category_name ++ ": " ++ Task.content item)].
      split; [|reflexivity]. cbn [move_items]. run. rewrite Eu. run. same_world. }
  match goal with |- context [api_add_task env ?h] => set (tried := h) end.
  destruct (api_add_task env tried (Task.content item) project_id (Some section_id)
              None None) as [add_error|new_task] eqn:Ea.
  { exists [Call (update_task (Task.id item) section_id);
            Log ERROR ("Failed to move item " ++ Task.content item
                       ++ " to section " ++ section_id ++ ": " ++ str e);
            Log INFO ("Attempting to recreate task " ++ Task.content item
                      ++ " in new section...");
            Call (add_task (Task.content item) project_id (Some section_id) None None);
            Log ERROR ("Failed to create new task for " ++ Task.content item
                       ++ ": " ++ str add_error)].
    split; [|reflexivity]. cbn [move_items]. run. rewrite Eu. run.
    match goal with |- context [api_add_task env ?h] =>
      replace h with tried
      by (unfold tried; cbn [history]; rewrite <- ?app_assoc; reflexivity)
    end.
    rewrite Ea. same_world. }
  set (created := (tried ++ [Call (add_task (Task.content item) project_id
                                     (Some section_id) None None);
                             Log INFO ("Created new task in " ++ category_name ++ ": "
                                       ++ Task.content new_task)])%list).
  exists ([Call (update_task (Task.id item) section_id);
           Log ERROR ("Failed to move item " ++ Task.content item
                      ++ " to section " ++ section_id ++ ": " ++ str e);
           Log INFO ("Attempting to recreate task " ++ Task.content item
                     ++ " in new section...");
           Call (add_task (Task.content item) project_id (Some section_id) None None);
           Log INFO ("Created new task in " ++ category_name ++ ": "
                     ++ Task.content new_task);
           Call (delete_task (Task.id item));
           match api_delete_task env created (Task.id item) with
           | inr _ => Log INFO ("Deleted original task: " ++ Task.content item)
           | inl delete_error =>
               Log WARNING ("Failed to delete original task " ++ Task.content item
                            ++ ": " ++ str delete_error)
           end]).
  split; [|cbn; now destruct (api_delete_task env created (Task.id item))].
  cbn [move_items]. run. rewrite Eu. run.
  match goal with |- context [api_add_task env ?h] =>
    replace h with tried
      by (unfold tried; cbn [history]; rewrite <- ?app_assoc; reflexivity)
  end.
  rewrite Ea. run.
  match goal with |- context [api_delete_task env ?h] =>
    replace h with created
      by (unfold created, tried; cbn [history]; rewrite <- ?app_assoc; reflexivity)
  end.
  destruct (api_delete_task env created (Task.id item)); same_world.
Qed.

(** Escalation is deduplicated.  With escalation switched on and the tasks
    of the administrative project listed, nothing is posted when an open
    task with the title of the marker is among them; otherwise one marker is
    posted, with the highest priority and due today. *)
Theorem escalation_deduplicated (env : Env) (settings : Settings)
    (error_message : string) (w : World) (tasks : list Task.t) :
  let system_project := str_of_option (TODOIST_SYSTEM_PROJECT_ID settings) in
  let listed := (history w ++ [Call (get_tasks system_project)])%list in
  escalation_enabled settings = true ->
  api_get_tasks env (history w) system_project = inr tasks ->
  calls_of (history (fst (create_error_task env settings error_message w)))
  = (calls_of (history w)
     ++ get_tasks system_project
        :: match open_error_task tasks with
           | Some _ => []
           | None =>
               [add_task (error_task_content (now_isoformat env listed) error_message)
                         system_project None (Some 4%Z) (Some "today")]
           end)%list.
Proof.
  cbv zeta. unfold escalation_enabled, create_error_task, open_error_task.
  intros Hon Hlist. apply andb_true_iff in Hon. destruct Hon as [-> ->].
  cbn [negb]. run. rewrite Hlist.
  destruct (find _ tasks).
  - cbn [fst history]. rewrite !calls_of_app. cbn. now rewrite app_nil_r.
  - run. fold (error_task_content
                 (now_isoformat env (history w ++ [Call (get_tasks
                    (str_of_option (TODOIST_SYSTEM_PROJECT_ID settings)))])%list)
                 error_message).
    destruct (api_add_task env _ _ _ _ _ _); cbn [fst history];
      rewrite !calls_of_app; cbn; rewrite ?app_nil_r, <- ?app_assoc; reflexivity.
Qed.

Lemma escalation_deduplicated_witness :
  escalation_enabled escalating_settings = true
  /\ api_get_tasks marker_env (history fresh_world) "admin" = inr [open_marker]
  /\ calls_of (history (fst (create_error_task marker_env escalating_settings
                               "Failed to categorize" fresh_world)))
     = [get_tasks "admin"].
Proof.
  split; [reflexivity|]. split; [reflexivity|].
  exact (escalation_deduplicated marker_env escalating_settings
           "Failed to categorize" fresh_world [open_marker] eq_refl eq_refl).
Defined.

(** *** Provisioning of the sections *)

Lemma setup_sections_present env project_id sections category_key category_config
    rest section_dict section w :
  find (fun s => String.eqb (TSection.name s)
                   (section_name_of env (category_key, category_config))) sections
  = Some section ->
  setup_sections env project_id sections ((category_key, category_config) :: rest)
                 section_dict w
  = setup_sections env project_id sections rest
      (dict_set section_dict category_key (TSection.id section)) w.
Proof.
  intros Hfind. cbn [setup_sections]. unfold section_name_of in Hfind.
  cbn [fst snd] in Hfind. now rewrite Hfind.
Qed.

Lemma setup_sections_calls env project_id sections categories section_dict w out :
  snd (setup_sections env project_id sections categories section_dict w) = inr out ->
  calls_of (history (fst (setup_sections env project_id sections categories
                            section_dict w)))
  = (calls_of (history w)
     ++ map (fun entry => add_section project_id (section_name_of env entry))
            (filter (missing_section env sections) categories))%list.
Proof.
  revert section_dict w.
  induction categories as [|[category_key category_config] rest IH];
    intros section_dict w Hok.
  - cbn. now rewrite app_nil_r.
  - cbn [filter]. unfold missing_section at 1.
    destruct (find _ sections) as [section|] eqn:Hfind.
    + rewrite (setup_sections_present _ _ _ _ _ _ _ _ _ Hfind) in Hok |- *.
      now apply IH.
    + revert Hok. cbn [setup_sections]. unfold section_name_of in Hfind.
      cbn [fst snd] in Hfind. rewrite Hfind. run.
      destruct (api_add_section env _ _ _) as [e|section]; [discriminate|].
      intros Hok. rewrite (IH _ _ Hok). cbn [history].
      rewrite !calls_of_app. cbn [map]. unfold section_name_of. cbn [fst snd].
      cbn. rewrite <- !app_assoc. reflexivity.
Qed.

Lemma setup_sections_all_present env project_id sections categories section_dict w :
  filter (missing_section env sections) categories = [] ->
  fst (setup_sections env project_id sections categories section_dict w) = w
  /\ exists out,
       snd (setup_sections env project_id sections categories section_dict w) = inr out.
Proof.
  revert section_dict.
  induction categories as [|[category_key category_config] rest IH];
    intros section_dict Hnone.
  - cbn. eauto.
  - cbn [filter] in Hnone. unfold missing_section at 1 in Hnone.
    destruct (find _ sections) as [section|] eqn:Hfind; [|discriminate].
    rewrite (setup_sections_present _ _ _ _ _ _ _ _ _ Hfind). now apply IH.
Qed.

(** Sections are created for the categories that lack one, and for those
    only: a provisioning that succeeds has called [add_section] once for
    every configured category without a section of its name, in the order
    of the configuration, and its map has the configured keys; when every
    category has its section, nothing is called and nothing is logged. *)
Theorem sections_created_when_missing (env : Env) (project_id : string)
    (sections : list TSection.t) (categories : dict CategoryConfig) (w : World) :
  let run := setup_sections env project_id sections categories [] w in
  (forall section_dict,
     snd run = inr section_dict ->
     calls_of (history (fst run))
     = (calls_of (history w)
        ++ map (fun entry => add_section project_id (section_name_of env entry))
               (filter (missing_section env sections) categories))%list
     /\ forall k, In k (keys section_dict) <-> In k (keys categories))
  /\ (filter (missing_section env sections) categories = [] ->
      fst run = w /\ exists section_dict, snd run = inr section_dict).
Proof.
  cbv zeta. split.
  - intros section_dict Hok. split.
    + now apply (setup_sections_calls _ _ _ _ _ _ section_dict).
    + intros k.
      destruct (setup_sections env project_id sections categories [] w)
        as [w' r] eqn:Erun. cbn [snd] in Hok. subst r.
      rewrite (setup_sections_keys _ _ _ _ _ _ _ _ Erun k). cbn. tauto.
  - apply setup_sections_all_present.
Qed.

(** ** What a computation emits *)

Lemma emits_nothing {A} P (m : M A) :
  (forall w, fst (m w) = w) -> emits P m.
Proof.
  intros H w. exists []. rewrite H, app_nil_r. now split.
Qed.

Lemma emits_ret {A} P (a : A) : emits P (ret a).
Proof. now apply emits_nothing. Qed.

Lemma emits_raise {A} P (e : exn) : emits P (@raise A e).
Proof. now apply emits_nothing. Qed.

Lemma emits_pure {A} P (f : World -> result A) : emits P (fun w => (w, f w)).
Proof. now apply emits_nothing. Qed.

Lemma emits_emit (P : event -> Prop) ev : P ev -> emits P (emit ev).
Proof. intros H w. exists [ev]. split; [reflexivity | now constructor]. Qed.

Lemma emits_log (P : event -> Prop) lvl msg : P (Log lvl msg) -> emits P (log lvl msg).
Proof. apply emits_emit. Qed.

Lemma emits_remote {A} (P : event -> Prop) c (oracle : list event -> result A) :
  P (Call c) -> emits P (remote c oracle).
Proof. intros H w. exists [Call c]. split; [reflexivity | now constructor]. Qed.

Lemma emits_bind {A B} P (m : M A) (k : A -> M B) :
  emits P m -> (forall a, emits P (k a)) -> emits P (bind m k).
Proof.
  intros Hm Hk w. unfold bind. destruct (Hm w) as (evs1 & H1 & F1).
  destruct (m w) as [w1 [e|a]]; cbn [fst] in *; [now exists evs1|].
  destruct (Hk a w1) as (evs2 & H2 & F2).
  exists (evs1 ++ evs2)%list. rewrite H2, H1, app_assoc.
  split; [reflexivity | now apply Forall_app].
Qed.

Lemma emits_attempt {A} P (m : M A) : emits P m -> emits P (attempt m).
Proof.
  intros Hm w. unfold attempt. destruct (Hm w) as (evs & H & F).
  destruct (m w) as [w1 r]. now exists evs.
Qed.

Lemma emits_try_except {A} P (m : M A) (handler : exn -> M A) :
  emits P m -> (forall e, emits P (handler e)) -> emits P (try_except m handler).
Proof.
  intros Hm Hh. unfold try_except. apply emits_bind; [now apply emits_attempt|].
  intros [e|a]; [apply Hh | apply emits_ret].
Qed.

Lemma emits_when P b (m : M unit) : emits P m -> emits P (when b m).
Proof. intros Hm. destruct b; [exact Hm | apply emits_ret]. Qed.

Lemma emits_weaken {A} (P Q : event -> Prop) (m : M A) :
  (forall ev, P ev -> Q ev) -> emits P m -> emits Q m.
Proof.
  intros HPQ Hm w. destruct (Hm w) as (evs & H & F).
  exists evs. split; [exact H|]. eapply Forall_impl; eauto.
Qed.

(** Takes a computation apart, down to the events it emits. *)
Ltac emitting :=
  repeat first
    [ assumption
    | apply emits_ret | apply emits_raise | apply emits_pure
    | apply emits_log; exact I
    | apply emits_emit; exact I
    | apply emits_remote; exact I
    | apply emits_when
    | apply emits_attempt
    | apply emits_bind; [|intros ?]
    | apply emits_try_except; [|intros ?]
    | match goal with
      | |- emits _ (match ?x with _ => _ end) => destruct x
      | |- emits _ (if ?b then _ else _) => destruct b
      | |- emits _ (let _ := _ in _) => cbv zeta
      end ].

Lemma emits_before_sleep n e : emits read_only (before_sleep n e).
Proof. unfold before_sleep. emitting. Qed.

Lemma emits_retry_loop {A} P fuel n (fn : M A) :
  (forall lvl msg, P (Log lvl msg)) -> (forall seconds, P (Sleep seconds)) ->
  emits P fn -> emits P (retry_loop fuel n fn).
Proof.
  intros Hlog Hsleep Hfn. revert n.
  induction fuel as [|fuel IH]; intros n; cbn [retry_loop].
  - apply emits_bind; [now apply emits_attempt|].
    intros [e|a]; [|apply emits_ret].
    destruct (negb _); [apply emits_raise|].
    destruct (stop_after_attempt 3 n); apply emits_raise.
  - apply emits_bind; [now apply emits_attempt|].
    intros [e|a]; [|apply emits_ret].
    destruct (negb _); [apply emits_raise|].
    destruct (stop_after_attempt 3 n); [apply emits_raise|].
    apply emits_bind; [|intros _; apply IH].
    unfold before_sleep. apply emits_bind; [apply emits_log, Hlog|].
    intros _. apply emits_emit, Hsleep.
Qed.

Lemma emits_get_shopping_project_id env settings :
  emits read_only (_get_shopping_project_id env settings).
Proof.
  apply emits_retry_loop; [intros; exact I | intros; exact I|].
  unfold _get_shopping_project_id_body. emitting.
Qed.

Lemma emits_get_current_tasks_state env project_id :
  emits read_only (_get_current_tasks_state env project_id).
Proof.
  apply emits_retry_loop; [intros; exact I | intros; exact I|].
  unfold _get_current_tasks_state_body. emitting.
Qed.

(** The health check is harmless: it never raises, it changes neither the
    sync state nor the files, and all it does remotely is read. *)
Theorem health_check_harmless (env : Env) (settings : Settings) (w : World) :
  let run := health_check env settings w in
  (exists passed, snd run = inr passed)
  /\ state (fst run) = state w
  /\ files (fst run) = files w
  /\ exists evs,
       history (fst run) = (history w ++ evs)%list /\ Forall read_only evs.
Proof.
  cbv zeta. split; [|split; [|split]].
  - unfold health_check, try_except. unfold bind at 1, attempt at 1.
    match goal with |- context [?body w] =>
      match type of body with M bool => destruct (body w) as [w1 [e|passed]] end
    end; cbn; eauto.
  - apply (keeps_try_except (A := bool)).
    + keeps; try apply keeps_get_shopping_project_id.
    + intros e. keeps.
  - apply (keeps_try_except (A := bool)).
    + keeps; try apply keeps_get_shopping_project_id.
    + intros e. keeps.
  - apply (emits_try_except (A := bool)).
    + emitting; try apply emits_get_shopping_project_id.
    + intros e. emitting.
Qed.

Lemma emits_setup_sections env project_id sections categories section_dict :
  emits provisions (setup_sections env project_id sections categories section_dict).
Proof.
  revert section_dict.
  induction categories as [|[category_key category_config] rest IH];
    intros section_dict; cbn [setup_sections]; emitting. apply IH.
Qed.

Lemma emits_setup_todoist_resources env settings categories_config :
  emits provisions (setup_todoist_resources env settings categories_config).
Proof.
  unfold setup_todoist_resources. emitting. apply emits_setup_sections.
Qed.

Lemma provisions_spares_tasks ev : provisions ev -> spares_tasks ev.
Proof. destruct ev as [[]| | |]; cbn; tauto. Qed.

(** Provisioning never changes a task: it neither creates, moves nor
    deletes one, and it leaves the sync state and the files alone. *)
Theorem provisioning_spares_tasks (env : Env) (settings : Settings)
    (categories_config : dict CategoryConfig) (w : World) :
  let run := setup_todoist_resources env settings categories_config w in
  state (fst run) = state w
  /\ files (fst run) = files w
  /\ exists evs,
       history (fst run) = (history w ++ evs)%list /\ Forall spares_tasks evs.
Proof.
  cbv zeta. split; [|split].
  - apply keeps_setup_todoist_resources.
  - apply keeps_setup_todoist_resources.
  - apply (emits_weaken provisions); [exact provisions_spares_tasks|].
    apply emits_setup_todoist_resources.
Qed.

(** ** The tasks the organizer touches *)

Lemma touches_only_incl (items all : list Task.t) ev :
  incl items all -> touches_only items ev -> touches_only all ev.
Proof.
  intros Hincl. destruct ev as [c| | |]; try (intros _; exact I).
  destruct c; cbn; try tauto; intros H; apply in_map_iff in H;
    destruct H as (task & <- & Hin); apply in_map, Hincl, Hin.
Qed.

Lemma provisions_touches_nothing ev : provisions ev -> touches_only [] ev.
Proof. destruct ev as [[]| | |]; cbn; tauto. Qed.

(** A step of a computation whose result is known to be in [R]. *)
Lemma emits_bind_post {A B} P (R : A -> Prop) (m : M A) (k : A -> M B) :
  emits P m -> (forall w a, snd (m w) = inr a -> R a) ->
  (forall a, R a -> emits P (k a)) -> emits P (bind m k).
Proof.
  intros Hm HR Hk w. unfold bind. destruct (Hm w) as (evs1 & H1 & F1).
  specialize (HR w).
  destruct (m w) as [w1 [e|a]]; cbn [fst snd] in *; [now exists evs1|].
  destruct (Hk a (HR a eq_refl) w1) as (evs2 & H2 & F2).
  exists (evs1 ++ evs2)%list. rewrite H2, H1, app_assoc.
  split; [reflexivity | now apply Forall_app].
Qed.

Lemma emits_move_items env project_id section_id category_name items all :
  incl items all ->
  emits (touches_only all)
        (move_items env project_id section_id category_name items).
Proof.
  induction items as [|item rest IH]; intros Hincl; cbn [move_items].
  - apply emits_ret.
  - assert (Hitem : In (Task.id item) (map Task.id all))
      by (apply in_map, Hincl; now left).
    apply emits_bind; [|intros _; apply IH; intros x Hx; apply Hincl; now right].
    unfold todoist_update_task, todoist_add_task, todoist_delete_task.
    repeat match goal with
           | |- emits _ (try_except _ _) => apply emits_try_except; [|intros ?]
           | |- emits _ (bind _ _) => apply emits_bind; [|intros ?]
           | |- emits _ (log _ _) => apply emits_log; exact I
           | |- emits _ (remote _ _) =>
               apply emits_remote; first [exact I | exact Hitem]
           end.
Qed.

Lemma emits_apply_moves env project_id section_dict categorized_items all :
  Forall (fun entry => incl (snd entry) all) categorized_items ->
  emits (touches_only all)
        (apply_moves env project_id section_dict categorized_items).
Proof.
  induction 1 as [|[category_key items] rest Hin _ IH]; cbn [apply_moves].
  - apply emits_ret.
  - apply emits_bind; [|intros _; exact IH].
    destruct items as [|item items]; [apply emits_ret|].
    destruct (dict_get section_dict category_key); [|apply emits_ret].
    now apply emits_move_items.
Qed.

Lemma emits_filter_duplicates env existing_items unlabeled_items unique all :
  incl unlabeled_items all ->
  emits (touches_only all)
        (filter_duplicates env existing_items unlabeled_items unique).
Proof.
  revert unique.
  induction unlabeled_items as [|item rest IH]; intros unique Hincl;
    cbn [filter_duplicates].
  - apply emits_ret.
  - assert (Hitem : In (Task.id item) (map Task.id all))
      by (apply in_map, Hincl; now left).
    assert (Hrest : incl rest all) by (intros x Hx; apply Hincl; now right).
    destruct (str_in _ existing_items); [|now apply IH].
    unfold todoist_delete_task.
    repeat match goal with
           | |- emits _ (filter_duplicates _ _ _ _) => apply IH; exact Hrest
           | |- emits _ (try_except _ _) => apply emits_try_except; [|intros ?]
           | |- emits _ (bind _ _) => apply emits_bind; [|intros ?]
           | |- emits _ (log _ _) => apply emits_log; exact I
           | |- emits _ (remote _ _) => apply emits_remote; exact Hitem
           end.
Qed.

Lemma filter_duplicates_incl env existing_items unlabeled_items w unique :
  snd (filter_duplicates env existing_items unlabeled_items [] w) = inr unique ->
  incl unique unlabeled_items.
Proof.
  destruct (filter_duplicates_run env existing_items unlabeled_items [] w)
    as (evs & -> & _).
  cbn [snd app]. intros [= <-] x Hx. apply filter_In in Hx. tauto.
Qed.

Lemma emits_categorize_items env settings items categories_config all :
  emits (touches_only all) (categorize_items env settings items categories_config).
Proof. unfold categorize_items. emitting. Qed.

Lemma categorize_items_incl env settings items categories_config w categorized_items :
  snd (categorize_items env settings items categories_config w) = inr categorized_items ->
  Forall (fun entry => incl (snd entry) items) categorized_items.
Proof.
  destruct (categorize_items env settings items categories_config w)
    as [w' r] eqn:Hrun.
  cbn [snd]. intros ->. apply categorize_items_ok in Hrun.
  destruct Hrun as [[_ ->]|(response_data & category_to_items & _ & _ & ->)];
    [constructor|].
  destruct (map_back_fold env items category_to_items []) as (_ & Hval & _).
  cbv zeta in Hval. specialize (Hval (Forall_nil _)).
  eapply Forall_impl; [|exact Hval].
  intros entry (names & ->) x Hx. unfold matching_tasks in Hx.
  apply filter_In in Hx. tauto.
Qed.

Lemma emits_create_error_task env settings error_message all :
  emits (touches_only all) (create_error_task env settings error_message).
Proof.
  unfold create_error_task, todoist_get_tasks, todoist_add_task, datetime_now.
  emitting.
Qed.

Lemma emits_report_failure env settings what short e all :
  emits (touches_only all) (report_failure env settings what short e).
Proof.
  unfold report_failure. emitting; apply emits_create_error_task.
Qed.

(** What the organizer does once it has the unlabeled items. *)
Lemma emits_after_fetch env settings project_id section_dict categories_config
    (unlabeled_items : list Task.t) :
  emits (touches_only unlabeled_items)
    (match unlabeled_items with
     | [] => log INFO "No unlabeled items found in shopping list."
     | _ =>
         log INFO ("Found " ++ str_of_nat (List.length unlabeled_items)
                   ++ " unlabeled items") ;;
         existing_items <- get_existing_items env project_id ;;
         unique_unlabeled_items <-
           filter_duplicates env existing_items unlabeled_items [] ;;
         match unique_unlabeled_items with
         | [] => log INFO "All new items were duplicates. Nothing to categorize."
         | _ =>
             log INFO ("Proceeding to categorize "
                       ++ str_of_nat (List.length unique_unlabeled_items)
                       ++ " unique items") ;;
             categorized <-
               attempt (categorize_items env settings unique_unlabeled_items
                                         categories_config) ;;
             match categorized with
             | inl e =>
                 report_failure env settings
                                "Failed to categorize items using OpenAI"
                                "OpenAI categorization error" e
             | inr categorized_items =>
                 apply_moves env project_id section_dict categorized_items ;;
                 log INFO "Shopping list organization completed successfully!"
             end
         end
     end).
Proof.
  destruct unlabeled_items as [|first others]; [apply emits_log; exact I|].
  set (unlabeled_items := first :: others).
  apply emits_bind; [apply emits_log; exact I|]. intros _.
  apply emits_bind;
    [unfold get_existing_items, todoist_get_tasks; emitting|].
  intros existing_items.
  apply (emits_bind_post _ (fun unique => incl unique unlabeled_items)).
  - apply emits_filter_duplicates. apply incl_refl.
  - intros w unique. apply filter_duplicates_incl.
  - intros unique Hunique.
    destruct unique as [|item unique']; [apply emits_log; exact I|].
    set (unique := item :: unique') in *.
    apply emits_bind; [apply emits_log; exact I|]. intros _.
    apply (emits_bind_post _
             (fun r => match r with
                       | inr categorized_items =>
                           Forall (fun entry => incl (snd entry) unique)
                                  categorized_items
                       | inl _ => True
                       end)).
    + apply emits_attempt, emits_categorize_items.
    + intros w r. unfold attempt.
      destruct (categorize_items env settings unique categories_config w)
        as [w' [e|categorized_items]] eqn:Hrun; cbn [snd]; intros [= <-];
        [exact I|].
      apply (categorize_items_incl env settings unique categories_config w).
      now rewrite Hrun.
    + intros [e|categorized_items] Hr; [apply emits_report_failure|].
      apply emits_bind; [|intros _; apply emits_log; exact I].
      apply emits_apply_moves. eapply Forall_impl; [|exact Hr].
      intros entry Hentry x Hx. apply Hunique, Hentry, Hx.
Qed.

Lemma tf_of_emits env {A} (m : M A) :
  emits (touches_only []) m -> touches_fetched env m.
Proof.
  intros Hm w. destruct (Hm w) as (evs & H & F). exists evs. split; [exact H|].
  now left.
Qed.

Lemma tf_bind_left env {A B} (m : M A) (k : A -> M B) :
  emits provisions m -> (forall a, touches_fetched env (k a)) ->
  touches_fetched env (bind m k).
Proof.
  intros Hm Hk w. unfold bind. destruct (Hm w) as (evs1 & H1 & F1).
  destruct (m w) as [w1 [e|a]]; cbn [fst] in *.
  - exists evs1. split; [exact H1|]. left.
    eapply Forall_impl; [|exact F1]. exact provisions_touches_nothing.
  - destruct (Hk a w1) as (evs2 & H2 & Hcase).
    exists (evs1 ++ evs2)%list. rewrite H2, H1, app_assoc. split; [reflexivity|].
    destruct Hcase as [F2|(before & project_id & tasks & later & -> & Fb & Ha & Fl)].
    + left. apply Forall_app. split; [|exact F2].
      eapply Forall_impl; [|exact F1]. exact provisions_touches_nothing.
    + right. exists (evs1 ++ before)%list, project_id, tasks, later.
      rewrite H1, <- app_assoc in Ha.
      split; [now rewrite app_assoc|]. split; [now apply Forall_app|].
      split; assumption.
Qed.

Lemma tf_try_except env {A} (m : M A) (handler : exn -> M A) :
  touches_fetched env m -> (forall e, emits (touches_only []) (handler e)) ->
  touches_fetched env (try_except m handler).
Proof.
  intros Hm Hh w. unfold try_except, bind, attempt.
  destruct (Hm w) as (evs1 & H1 & Hcase).
  destruct (m w) as [w1 [e|a]]; cbn [fst] in *; [|exists evs1; now split].
  destruct (Hh e w1) as (evs2 & H2 & F2).
  exists (evs1 ++ evs2)%list. rewrite H2, H1, app_assoc. split; [reflexivity|].
  destruct Hcase as [F1|(before & project_id & tasks & later & -> & Fb & Ha & Fl)].
  - left. now apply Forall_app.
  - right. exists before, project_id, tasks, (later ++ evs2)%list.
    split; [now rewrite <- app_assoc|]. split; [exact Fb|]. split; [exact Ha|].
    apply Forall_app. split; [exact Fl|].
    eapply Forall_impl; [|exact F2].
    intros ev. apply touches_only_incl. intros x [].
Qed.

Lemma tf_fetch env {B} project_id (k : list Task.t -> M B) :
  (forall unlabeled_items, emits (touches_only unlabeled_items) (k unlabeled_items)) ->
  touches_fetched env (bind (get_unlabeled_items env project_id) k).
Proof.
  intros Hk w. unfold get_unlabeled_items, todoist_get_tasks, remote, bind, ret.
  destruct (api_get_tasks env (history w) project_id) as [e|tasks] eqn:Ha;
    cbn [fst history].
  - exists [Call (get_tasks project_id)]. split; [reflexivity|]. left.
    repeat constructor.
  - match goal with |- context [k _ ?w1] =>
      destruct (Hk (filter unlabeled tasks) w1) as (evs2 & H2 & F2)
    end.
    exists (Call (get_tasks project_id) :: evs2). rewrite H2. cbn [history].
    rewrite <- app_assoc. split; [reflexivity|]. right.
    exists [], project_id, tasks, evs2. rewrite app_nil_r.
    repeat match goal with |- _ /\ _ => split end;
      [reflexivity | constructor | exact Ha | exact F2].
Qed.

Lemma tf_organize_shopping_list env settings :
  touches_fetched env (organize_shopping_list env settings).
Proof.
  unfold organize_shopping_list. apply tf_try_except.
  2:{ intros e. emitting; apply emits_create_error_task. }
  apply tf_bind_left; [apply emits_log; exact I|]. intros _.
  apply tf_bind_left; [apply emits_pure|]. intros [e|].
  { apply tf_of_emits, emits_report_failure. }
  apply tf_bind_left; [apply emits_attempt, emits_pure|].
  intros [e|categories_config]; [apply tf_of_emits, emits_log; exact I|].
  apply tf_bind_left; [apply emits_setup_todoist_resources|].
  intros resources. cbv zeta. apply tf_fetch.
  intros unlabeled_items. apply emits_after_fetch.
Qed.

(** The organizer only touches what it has fetched as unlabeled.  A run
    either moves and deletes nothing; or, after provisioning, it lists the
    tasks of the project, and every task it moves or deletes afterwards is
    one that this answer shows without a section and without a parent.
    Tasks that already have a section, and subtasks, are never moved or
    deleted. *)
Theorem organizer_touches_unlabeled_only (env : Env) (settings : Settings)
    (w : World) :
  exists evs,
    history (fst (organize_shopping_list env settings w)) = (history w ++ evs)%list
    /\ (Forall (touches_only []) evs
        \/ exists before project_id tasks later,
             evs = (before ++ Call (get_tasks project_id) :: later)%list
             /\ Forall provisions before
             /\ api_get_tasks env (history w ++ before)%list project_id = inr tasks
             /\ Forall (touches_only (filter unlabeled tasks)) later).
Proof. apply tf_organize_shopping_list. Qed.

(** ** C6: the items handed to the Categorizer *)



Lemma after_inj w evs1 evs2 : after w evs1 = after w evs2 -> evs1 = evs2.
Proof. intros H. apply (f_equal history) in H. cbn in H. now apply app_inv_head in H. Qed.




















(** The same at a run: "  MILK " is an unlabeled duplicate of "Milk", which
    has a section.  It is deleted, the request of the Categorizer lists
    "Bread" only, and "Bread" alone is moved. *)
Example duplicate_deleted_not_requested :
  calls_of (history (fst (organize_shopping_list duplicate_env scenario_settings
                                                 fresh_world)))
  = [get_projects; get_sections "p1"; add_section "p1" "P Produce";
     add_section "p1" "D Dairy"; get_tasks "p1"; get_tasks "p1";
     delete_task "5";
     chat_completions_create "gpt-4o-mini"
       (system_prompt duplicate_env scenario_categories) (user_prompt [bread]);
     update_task "6" "section of P Produce"].
Proof. vm_compute. reflexivity. Qed.

(** ** A cycle without a change *)

Lemma emits_any {A} (m : M A) :
  (forall w, exists evs, history (fst (m w)) = (history w ++ evs)%list) ->
  emits any_event m.
Proof.
  intros H w. destruct (H w) as (evs & Hevs). exists evs. split; [exact Hevs|].
  apply Forall_forall. intros ev _. exact I.
Qed.

Lemma emits_fs_do env (P : event -> Prop) op : P (Fs op) -> emits P (fs_do env op).
Proof.
  intros H w. unfold fs_do. destruct (fs_fault env (history w) op).
  - exists []. rewrite app_nil_r. now split.
  - destruct (missing_source (files w) op).
    + exists []. rewrite app_nil_r. now split.
    + exists [Fs op]. split; [reflexivity | now constructor].
Qed.

Lemma emits_write_chunks env p chunks : emits any_event (write_chunks env p chunks).
Proof.
  induction chunks as [|chunk rest IH]; cbn [write_chunks]; [apply emits_ret|].
  apply emits_bind; [apply emits_fs_do; exact I | intros _; exact IH].
Qed.

Lemma emits_save env settings : emits any_event (save env settings).
Proof.
  unfold save, with_open_w.
  repeat match goal with
         | |- emits _ (let _ := _ in _) => cbv zeta
         | |- emits _ (try_except _ _) => apply emits_try_except; [|intros ?]
         | |- emits _ (bind _ _) => apply emits_bind; [|intros ?]
         | |- emits _ (attempt _) => apply emits_attempt
         | |- emits _ (log _ _) => apply emits_log; exact I
         | |- emits _ (fs_do _ _) => apply emits_fs_do; exact I
         | |- emits _ (write_chunks _ _ _) => apply emits_write_chunks
         | |- emits _ (ret _) => apply emits_ret
         | |- emits _ (raise _) => apply emits_raise
         | |- emits _ get_state => apply emits_pure
         | |- emits _ (match ?x with _ => _ end) => destruct x
         end.
Qed.

Lemma emits_state_update env current_state :
  emits any_event (state_update env current_state).
Proof. intros w. exists []. rewrite app_nil_r. now split. Qed.

Lemma emits_organize_shopping_list env settings :
  emits any_event (organize_shopping_list env settings).
Proof.
  apply emits_any. intros w.
  destruct (tf_organize_shopping_list env settings w) as (evs & H & _). now exists evs.
Qed.

(** One call of the listing that [_get_current_tasks_state] decorates. *)
Lemma get_current_tasks_state_body_run env project_id w :
  _get_current_tasks_state_body env project_id w
  = match api_get_tasks env (history w) project_id with
    | inr tasks => (after w [Call (get_tasks project_id)], inr (tasks_snapshot tasks))
    | inl e =>
        (after w [Call (get_tasks project_id);
                  Log ERROR ("Failed to get tasks: " ++ str e)], inl e)
    end.
Proof.
  unfold _get_current_tasks_state_body. run.
  destruct (api_get_tasks env (history w) project_id); same_world.
Qed.

(** The two ways a call of the listing ends. *)
Ltac fetch_failed project_id e :=
  unfold raise; intros [= <- <-];
  exists [Call (get_tasks project_id); Log ERROR ("Failed to get tasks: " ++ str e)];
  repeat match goal with |- _ /\ _ => split end;
  [reflexivity | repeat constructor | reflexivity | reflexivity | discriminate].

Ltac fetch_done project_id tasks :=
  unfold ret; intros [= <- <-]; exists [Call (get_tasks project_id)];
  repeat match goal with |- _ /\ _ => split end;
  [reflexivity | repeat constructor | reflexivity | reflexivity |];
  intros ? [= <-]; exists [], tasks; rewrite app_nil_r;
  repeat match goal with |- _ /\ _ => split end; [reflexivity | assumption | reflexivity].

(** The decorated listing only reads, and a snapshot it returns is that of
    the answer to its last call. *)
Lemma retry_fetch env project_id fuel n w w' r :
  retry_loop fuel n (_get_current_tasks_state_body env project_id) w = (w', r) ->
  exists evs,
    history w' = (history w ++ evs)%list
    /\ Forall read_only evs
    /\ state w' = state w /\ files w' = files w
    /\ forall current_state,
         r = inr current_state ->
         exists before tasks,
           evs = (before ++ [Call (get_tasks project_id)])%list
           /\ api_get_tasks env (history w ++ before)%list project_id = inr tasks
           /\ current_state = tasks_snapshot tasks.
Proof.
  revert n w w' r. induction fuel as [|fuel IH]; intros n w w' r.
  all: cbn [retry_loop]; unfold bind at 1, attempt at 1;
    rewrite get_current_tasks_state_body_run;
    destruct (api_get_tasks env (history w) project_id) as [e|tasks] eqn:Ha;
    [|fetch_done project_id tasks].
  all: destruct (negb (retry_if_exception_type e)); [fetch_failed project_id e|].
  all: destruct (stop_after_attempt 3 n); [fetch_failed project_id e|].
  - fetch_failed project_id e.
  - set (paused := [Call (get_tasks project_id);
                    Log ERROR ("Failed to get tasks: " ++ str e);
                    Log WARNING ("Retrying in "
                                 ++ str_of_Z (wait_exponential 1 4 10 n)
                                 ++ " seconds as it raised " ++ str e);
                    Sleep (wait_exponential 1 4 10 n)]).
    assert (Hsleep : before_sleep n e
                       (after w [Call (get_tasks project_id);
                                 Log ERROR ("Failed to get tasks: " ++ str e)])
                     = (after w paused, inr tt)).
    { unfold before_sleep. run. same_world. }
    rewrite (bind_inr _ _ _ _ _ Hsleep). intros Hrun.
    assert (Hpaused : forall evs,
              (history (after w paused) ++ evs)%list
              = (history w ++ paused ++ evs)%list)
      by (intros evs; unfold after; cbn [history]; now rewrite <- app_assoc).
    destruct (IH (S n) (after w paused) w' r Hrun)
      as (evs & Hh & Fr & Hs & Hf & Hcur).
    exists (paused ++ evs)%list. rewrite Hh, Hs, Hf, Hpaused.
    repeat match goal with |- _ /\ _ => split end; try reflexivity.
    + apply Forall_app. split; [repeat constructor | exact Fr].
    + intros current_state Hret.
      destruct (Hcur current_state Hret) as (before & tasks & -> & Hask & ->).
      exists (paused ++ before)%list, tasks. rewrite Hpaused in Hask.
      rewrite <- app_assoc. now repeat split.
Qed.

Lemma ruc_of_emits env {A} (m : M A) :
  emits read_only m -> keeps_state_files m -> reads_until_change env m.
Proof.
  intros Hm Hk w. destruct (Hm w) as (evs & H & F). destruct (Hk w) as [Hs Hf].
  exists evs. split; [exact H|]. left. now repeat split.
Qed.

Lemma ruc_bind_left env {A B} (m : M A) (k : A -> M B) :
  emits read_only m -> keeps_state_files m ->
  (forall a, reads_until_change env (k a)) ->
  reads_until_change env (bind m k).
Proof.
  intros Hm Hkeep Hk w. unfold bind.
  destruct (Hm w) as (evs1 & H1 & F1). destruct (Hkeep w) as [Hs Hf].
  destruct (m w) as [w1 [e|a]]; cbn [fst] in *.
  - exists evs1. split; [exact H1|]. left. now repeat split.
  - destruct (Hk a w1) as (evs2 & H2 & Hcase).
    exists (evs1 ++ evs2)%list. rewrite H2, H1, app_assoc. split; [reflexivity|].
    destruct Hcase as [(F2 & Hs2 & Hf2)
                      |(before & project_id & tasks & later & -> & Fb & Ha & Hc)].
    + left. split; [now apply Forall_app|]. split; congruence.
    + right. exists (evs1 ++ before)%list, project_id, tasks, later.
      rewrite H1, <- app_assoc in Ha. rewrite Hs in Hc.
      split; [now rewrite app_assoc|]. split; [now apply Forall_app|].
      now split.
Qed.

Lemma ruc_try_except env {A} (m : M A) (handler : exn -> M A) :
  reads_until_change env m ->
  (forall e, emits read_only (handler e)) ->
  (forall e, keeps_state_files (handler e)) ->
  reads_until_change env (try_except m handler).
Proof.
  intros Hm Hh Hkeep w. unfold try_except, bind, attempt.
  destruct (Hm w) as (evs1 & H1 & Hcase).
  destruct (m w) as [w1 [e|a]]; cbn [fst] in *; [|exists evs1; now split].
  destruct (Hh e w1) as (evs2 & H2 & F2). destruct (Hkeep e w1) as [Hs Hf].
  exists (evs1 ++ evs2)%list. rewrite H2, H1, app_assoc. split; [reflexivity|].
  destruct Hcase as [(F1 & Hs1 & Hf1)
                    |(before & project_id & tasks & later & -> & Fb & Ha & Hc)].
  - left. split; [now apply Forall_app|]. split; congruence.
  - right. exists before, project_id, tasks, (later ++ evs2)%list.
    split; [now rewrite <- app_assoc|]. now repeat split.
Qed.

Lemma ruc_fetch env project_id {B} (k : dict TaskSnapshot -> M B) :
  (forall current_state w,
     exists evs,
       history (fst (k current_state w)) = (history w ++ evs)%list
       /\ (Forall read_only evs
           /\ state (fst (k current_state w)) = state w
           /\ files (fst (k current_state w)) = files w
           \/ has_changed (state w) current_state = true)) ->
  reads_until_change env (bind (_get_current_tasks_state env project_id) k).
Proof.
  intros Hk w. unfold _get_current_tasks_state, create_todoist_retry_decorator, bind.
  destruct (retry_loop 3 1 (_get_current_tasks_state_body env project_id) w)
    as [w1 r] eqn:Hrun.
  destruct (retry_fetch env project_id 3 1 w w1 r Hrun)
    as (evs1 & H1 & F1 & Hs & Hf & Hcur).
  destruct r as [e|current_state]; cbn [fst snd] in *.
  - exists evs1. split; [exact H1|]. left. now repeat split.
  - destruct (Hcur current_state eq_refl) as (before & tasks & -> & Ha & ->).
    destruct (Hk (tasks_snapshot tasks) w1) as (evs2 & H2 & Hcase).
    apply Forall_app in F1. destruct F1 as [Fb Fc].
    exists (before ++ Call (get_tasks project_id) :: evs2)%list.
    split; [rewrite H2, H1, <- !app_assoc; reflexivity|].
    destruct Hcase as [(F2 & Hs2 & Hf2)|Hc].
    + left. split; [|split; congruence].
      apply Forall_app. split; [exact Fb|]. constructor; [exact I | exact F2].
    + right. exists before, project_id, tasks, evs2. rewrite Hs in Hc.
      now repeat split.
Qed.

Lemma ruc_check_and_sync env settings :
  reads_until_change env (check_and_sync env settings).
Proof.
  unfold check_and_sync. apply ruc_try_except.
  2:{ intros e. emitting. }
  2:{ intros e. keeps. }
  apply ruc_bind_left; [apply emits_log; exact I | apply keeps_log|]. intros _.
  apply ruc_bind_left;
    [apply emits_get_shopping_project_id | apply keeps_get_shopping_project_id|].
  intros project_id.
  destruct (negb (truthy project_id));
    [apply ruc_of_emits; [apply emits_log; exact I | apply keeps_log]|].
  apply ruc_fetch. intros current_state w.
  match goal with |- context [fst (?m w)] =>
    assert (Hany : emits any_event m)
  end.
  { apply emits_bind; [apply emits_pure|]. intros self.
    apply emits_bind; [|intros _; apply emits_log; exact I].
    destruct (has_changed self current_state); [|apply emits_log; exact I].
    apply emits_bind; [apply emits_log; exact I|]. intros _.
    apply emits_try_except.
    - apply emits_bind; [apply emits_organize_shopping_list|]. intros _.
      apply emits_bind; [apply emits_state_update|]. intros _.
      apply emits_bind; [apply emits_save|]. intros _.
      apply emits_log; exact I.
    - intros e. emitting. }
  destruct (has_changed (state w) current_state) eqn:Hchanged.
  - destruct (Hany w) as (evs & H & _). exists evs. split; [exact H|]. now right.
  - clear Hany.
    match goal with |- context [fst (?m w)] =>
      assert (Hrun : m w
                     = (after w [Log INFO "No changes detected in shopping list";
                                 Log INFO "Todoist sync check completed"], inr tt))
    end.
    { unfold bind at 1, get_state at 1. rewrite Hchanged. run. same_world. }
    rewrite Hrun.
    exists [Log INFO "No changes detected in shopping list";
            Log INFO "Todoist sync check completed"].
    split; [reflexivity|]. left.
    split; [repeat constructor|]. split; reflexivity.
Qed.

(** The organizer runs only after a detected change.  A cycle only adds
    events to the history.  Either all it does is read -- lookups of the
    project and listings of the tasks, lines of the log, pauses of the
    retry decorator -- and the sync state and the files are as before; or,
    having only read so far, it has listed the tasks and received an answer
    whose snapshot differs from the stored one. *)
Theorem cycle_reads_until_change (env : Env) (settings : Settings) (w : World) :
  let run := check_and_sync env settings w in
  exists evs,
    history (fst run) = (history w ++ evs)%list
    /\ (Forall read_only evs
        /\ state (fst run) = state w /\ files (fst run) = files w
        \/ exists before project_id tasks later,
             evs = (before ++ Call (get_tasks project_id) :: later)%list
             /\ Forall read_only before
             /\ api_get_tasks env (history w ++ before)%list project_id = inr tasks
             /\ has_changed (state w) (tasks_snapshot tasks) = true).
Proof. apply ruc_check_and_sync. Qed.

(** ** The pauses of the retry decorator *)

Lemma emits_retry_pauses {A} fuel n (fn : M A) :
  1 <= n -> emits no_sleep fn -> emits pause_of_four (retry_loop fuel n fn).
Proof.
  intros Hn Hfn.
  assert (Hfn' : emits pause_of_four fn).
  { apply (emits_weaken no_sleep); [|exact Hfn].
    intros [c|lvl msg|seconds|op]; cbn; tauto. }
  revert n Hn. induction fuel as [|fuel IH]; intros n Hn; cbn [retry_loop].
  all: apply emits_bind; [now apply emits_attempt|].
  all: intros [e|a]; [|apply emits_ret].
  all: destruct (negb _); [apply emits_raise|].
  all: destruct (stop_after_attempt 3 n) eqn:Hstop; [apply emits_raise|].
  - apply emits_raise.
  - apply emits_bind; [|intros _; apply IH; lia].
    unfold before_sleep. cbv zeta.
    apply emits_bind; [apply emits_log; exact I|]. intros _.
    apply emits_emit. cbn. unfold stop_after_attempt in Hstop.
    apply Nat.leb_gt in Hstop.
    assert (Hcase : n = 1 \/ n = 2) by lia.
    destruct Hcase as [-> | ->]; reflexivity.
Qed.

(** Every pause of the retry decorator lasts four seconds.  With
    [multiplier=1], [min=4] and at most three attempts the exponential
    wait never gets above its minimum: a decorated function that does not
    sleep itself only ever sleeps four seconds between two attempts, and
    the [max=10] is never reached. *)
Theorem retry_pauses_four_seconds {A : Type} (fn : M A) (w : World) :
  emits no_sleep fn ->
  exists evs,
    history (fst (create_todoist_retry_decorator fn w)) = (history w ++ evs)%list
    /\ Forall pause_of_four evs.
Proof.
  intros Hfn. apply (emits_retry_pauses 3 1 fn); [lia | exact Hfn].
Qed.

Lemma retry_pauses_four_seconds_witness :
  emits no_sleep (_get_current_tasks_state_body not_found_env "p")
  /\ exists evs,
       history (fst (_get_current_tasks_state not_found_env "p" fresh_world))
       = (history fresh_world ++ evs)%list
       /\ Forall pause_of_four evs.
Proof.
  assert (H : emits no_sleep (_get_current_tasks_state_body not_found_env "p")).
  { unfold _get_current_tasks_state_body. emitting. }
  split; [exact H|].
  exact (retry_pauses_four_seconds
           (_get_current_tasks_state_body not_found_env "p") fresh_world H).
Defined.

(** ** The project of the shopping list *)

Lemma emits_sections_of env project_id sections categories section_dict :
  emits creates_no_project
        (setup_sections env project_id sections categories section_dict).
Proof.
  revert section_dict.
  induction categories as [|[category_key category_config] rest IH];
    intros section_dict; cbn [setup_sections]; emitting. apply IH.
Qed.

(** Provisioning once the project is known. *)
Lemma emits_known_project env (categories_config : dict CategoryConfig)
    (shopping_project : Project.t) :
  emits creates_no_project
    (sections <- remote (get_sections (Project.id shopping_project))
                        (fun h => api_get_sections env h (Project.id shopping_project)) ;;
     section_dict <- setup_sections env (Project.id shopping_project) sections
                                    categories_config [] ;;
     ret (Project.id shopping_project, section_dict)).
Proof.
  apply emits_bind; [apply emits_remote; exact I|]. intros sections.
  apply emits_bind; [apply emits_sections_of|]. intros section_dict.
  apply emits_ret.
Qed.

(** No second project.  Provisioning creates a project only after the
    search by name has answered without a project of the configured name;
    then it creates one project, of that name.  Before the search it has at
    most tried the configured id: a lookup by id that raises is logged as a
    warning and leads to the search by name, so it does not prevent the
    creation.  When the project is found, by its id or by its name, or
    when the search by name raises, nothing is created. *)
Theorem project_created_only_when_missing (env : Env) (settings : Settings)
    (categories_config : dict CategoryConfig) (w : World) :
  let run := setup_todoist_resources env settings categories_config w in
  let shopping := TODOIST_SHOPPING_PROJECT_NAME settings in
  let configured := TODOIST_SHOPPING_PROJECT_ID settings in
  exists evs,
    history (fst run) = (history w ++ evs)%list
    /\ (Forall creates_no_project evs
        \/ exists by_id projects warning later,
             evs = (by_id ++ Call get_projects :: Log WARNING warning
                    :: Call (add_project shopping) :: later)%list
             /\ (truthy configured = false /\ by_id = []
                 \/ exists e fallback,
                      truthy configured = true
                      /\ api_get_project env (history w) (str_of_option configured)
                         = inl e
                      /\ by_id = [Call (get_project (str_of_option configured));
                                  Log WARNING fallback])
             /\ api_get_projects env (history w ++ by_id)%list = inr projects
             /\ find (fun p => String.eqb (Project.name p) shopping) projects = None
             /\ Forall creates_no_project later).
Proof.
  cbv zeta. unfold setup_todoist_resources.
  match goal with |- context [bind ?m _ w] => set (by_id_lookup := m) end.
  assert (H1 : exists evs0 by_id,
             by_id_lookup w = (after w evs0, inr by_id)
             /\ Forall creates_no_project evs0
             /\ (by_id = None ->
                 truthy (TODOIST_SHOPPING_PROJECT_ID settings) = false /\ evs0 = []
                 \/ exists e fallback,
                      truthy (TODOIST_SHOPPING_PROJECT_ID settings) = true
                      /\ api_get_project env (history w)
                           (str_of_option (TODOIST_SHOPPING_PROJECT_ID settings))
                         = inl e
                      /\ evs0 = [Call (get_project
                                   (str_of_option (TODOIST_SHOPPING_PROJECT_ID settings)));
                                 Log WARNING fallback])).
  { unfold by_id_lookup.
    destruct (truthy (TODOIST_SHOPPING_PROJECT_ID settings)) eqn:Eid.
    - cbv zeta. unfold bind, attempt, remote.
      destruct (api_get_project env (history w) _) as [e|project] eqn:Eget.
      + eexists _, None. unfold log, emit, ret. cbn [history state files].
        split; [unfold after; rewrite <- app_assoc; reflexivity|].
        split; [repeat constructor|]. intros _. right.
        eexists e, _. split; [reflexivity|]. split; reflexivity.
      + exists [Call (get_project (str_of_option (TODOIST_SHOPPING_PROJECT_ID settings)))],
               (Some project).
        split; [reflexivity|]. split; [repeat constructor | discriminate].
    - exists [], None. rewrite after_nil. split; [reflexivity|].
      split; [constructor|]. intros _. now left. }
  destruct H1 as (evs0 & by_id & E1 & F0 & Hby_id).
  rewrite (bind_inr _ _ _ _ _ E1). clearbody by_id_lookup. clear E1.
  assert (Hfound : forall (project : Project.t) w1 evs1,
            history w1 = (history w ++ evs1)%list ->
            Forall creates_no_project evs1 ->
            exists evs2,
              history (fst ((sections <- remote (get_sections (Project.id project))
                                (fun h => api_get_sections env h (Project.id project)) ;;
                             section_dict <- setup_sections env (Project.id project)
                                               sections categories_config [] ;;
                             ret (Project.id project, section_dict)) w1))
              = (history w ++ evs1 ++ evs2)%list
              /\ Forall creates_no_project evs2).
  { intros project w1 evs1 Hw1 F1.
    destruct (emits_known_project env categories_config project w1)
      as (evs2 & H2 & F2).
    exists evs2. rewrite H2, Hw1, app_assoc. now split. }
  destruct by_id as [project|].
  { unfold bind at 1, ret at 1. unfold bind at 1, ret at 1.
    destruct (Hfound project (after w evs0) evs0 eq_refl F0) as (evs2 & H2 & F2).
    exists (evs0 ++ evs2)%list. split; [exact H2|]. left. now apply Forall_app. }
  specialize (Hby_id eq_refl).
  unfold bind at 1. unfold bind at 1, remote at 1. cbn [history state files after].
  destruct (api_get_projects env (history w ++ evs0)%list) as [e|projects] eqn:Ep.
  { exists (evs0 ++ [Call get_projects])%list. cbn [fst history].
    rewrite app_assoc. split; [reflexivity|]. left.
    apply Forall_app. split; [exact F0 | repeat constructor]. }
  unfold ret at 1.
  destruct (find _ projects) as [project|] eqn:Ef.
  { unfold bind at 1, ret at 1.
    match goal with |- context [fst (_ ?w1)] =>
      destruct (Hfound project w1 (evs0 ++ [Call get_projects])%list)
        as (evs2 & H2 & F2)
    end.
    - cbn [history]. now rewrite app_assoc.
    - apply Forall_app. split; [exact F0 | repeat constructor].
    - exists ((evs0 ++ [Call get_projects]) ++ evs2)%list.
      split; [exact H2|]. left.
      apply Forall_app. split; [|exact F2].
      apply Forall_app. split; [exact F0 | repeat constructor]. }
  unfold bind at 1. unfold bind at 1, log at 1, emit at 1, remote at 1.
  set (warning := "Shopping list project '"
                  ++ TODOIST_SHOPPING_PROJECT_NAME settings
                  ++ "' not found, creating it...").
  match goal with |- context [api_add_project env ?h ?nm] =>
    destruct (api_add_project env h nm) as [e|project]
  end.
  { exists (evs0 ++ [Call get_projects; Log WARNING warning;
                     Call (add_project (TODOIST_SHOPPING_PROJECT_NAME settings))])%list.
    cbn [fst history]. rewrite <- !app_assoc. split; [reflexivity|]. right.
    exists evs0, projects, warning, [].
    repeat match goal with |- _ /\ _ => split end;
      [reflexivity | | exact Ep | exact Ef | constructor].
    destruct Hby_id as [[? ?]|(e' & fallback & ? & ? & ?)];
      [now left | right; now exists e', fallback]. }
  match goal with |- context [fst (_ ?w1)] =>
    destruct (emits_known_project env categories_config project w1)
      as (evs2 & H2 & F2)
  end.
  exists (evs0 ++ Call get_projects :: Log WARNING warning
          :: Call (add_project (TODOIST_SHOPPING_PROJECT_NAME settings)) :: evs2)%list.
  rewrite H2. cbn [history]. rewrite <- !app_assoc. split; [reflexivity|]. right.
  exists evs0, projects, warning, evs2.
  repeat match goal with |- _ /\ _ => split end;
    [reflexivity | | exact Ep | exact Ef | exact F2].
  destruct Hby_id as [[? ?]|(e' & fallback & ? & ? & ?)];
    [now left | right; now exists e', fallback].
Qed.
